(** * dl.py: download external assets and rewrite references

    A shallow embedding of [src/dl.py] and of the parts of the Python
    standard library it relies on ([str] methods, [re], [urllib.parse],
    [os.path], [os.walk], [requests]).

    Conventions of the model.
    - Text is a [string] whose characters are code points below 256.  On
      that range [lower_char] is Python's [str.lower], [is_space] is
      [str.isspace], and a pattern compiled with [re.IGNORECASE] compares
      characters through [lower_char].  Text with other code points, and
      files that do not decode as text, are outside the model.
    - [os.path] is the POSIX one.  Paths are lists of components below
      [project_root]; the root itself is the empty list.
    - [urlparse] is the one of CPython 3.11 and 3.12.
    - The file system is a tree of directories and files, without links.
      A file operation fails for what the tree explains (a missing
      parent, a directory in the place of a file) and, when a file is
      opened for writing, for a name of more than 255 bytes.
    - A file opened in text mode is read with universal newlines and
      written as it is.
    - The network, the validation of bracketed hosts and the iteration
      order of a Python [set] are supplied by a [world].
    - An exception that the program does not catch ends the run; the
      state reached is kept. *)

From Stdlib Require Import String Ascii List Bool Arith Lia.
Import ListNotations.
Local Open Scope list_scope.
Local Open Scope string_scope.

(** * Python [str] *)

Module Str.

Definition code (c : ascii) : nat := nat_of_ascii c.

Definition between (lo hi : nat) (c : ascii) : bool :=
  Nat.leb lo (code c) && Nat.leb (code c) hi.

Definition is_upper (c : ascii) : bool := between 65 90 c.
Definition is_lower (c : ascii) : bool := between 97 122 c.
Definition is_digit (c : ascii) : bool := between 48 57 c.
Definition is_alpha (c : ascii) : bool := is_upper c || is_lower c.

(** [str.lower] on one code point below 256: the ASCII capitals and the
    Latin-1 capitals 0xC0..0xDE (0xD7 is the multiplication sign). *)
Definition lower_char (c : ascii) : ascii :=
  if is_upper c || (between 192 222 c && negb (Nat.eqb (code c) 215))
  then ascii_of_nat (code c + 32)
  else c.

(** [str.isspace] on one code point below 256. *)
Definition is_space (c : ascii) : bool :=
  between 9 13 c || between 28 32 c || Nat.eqb (code c) 133 || Nat.eqb (code c) 160.

Fixpoint map (f : ascii -> ascii) (s : string) : string :=
  match s with
  | EmptyString => EmptyString
  | String c s' => String (f c) (map f s')
  end.

Fixpoint filter (f : ascii -> bool) (s : string) : string :=
  match s with
  | EmptyString => EmptyString
  | String c s' => if f c then String c (filter f s') else filter f s'
  end.

Fixpoint forallb (f : ascii -> bool) (s : string) : bool :=
  match s with
  | EmptyString => true
  | String c s' => f c && forallb f s'
  end.

Fixpoint mem (c : ascii) (s : string) : bool :=
  match s with
  | EmptyString => false
  | String d s' => Ascii.eqb c d || mem c s'
  end.

Fixpoint rev_onto (s acc : string) : string :=
  match s with
  | EmptyString => acc
  | String c s' => rev_onto s' (String c acc)
  end.

Definition rev (s : string) : string := rev_onto s EmptyString.

Fixpoint drop (n : nat) (s : string) : string :=
  match n, s with
  | S n', String _ s' => drop n' s'
  | _, _ => s
  end.

Fixpoint drop_while (f : ascii -> bool) (s : string) : string :=
  match s with
  | String c s' => if f c then drop_while f s' else s
  | EmptyString => EmptyString
  end.

Fixpoint take_while (f : ascii -> bool) (s : string) : string :=
  match s with
  | String c s' => if f c then String c (take_while f s') else EmptyString
  | EmptyString => EmptyString
  end.

(** [s.lower()] *)
Definition lower (s : string) : string := map lower_char s.

(** [s.startswith(p)] *)
Definition startswith (p s : string) : bool := String.prefix p s.

(** [s.endswith(p)]: some tail of [s] is [p]. *)
Fixpoint endswith (p s : string) : bool :=
  String.eqb s p ||
  match s with
  | EmptyString => false
  | String _ s' => endswith p s'
  end.

(** [s.strip()] *)
Definition lstrip (s : string) : string := drop_while is_space s.
Definition rstrip (s : string) : string := rev (drop_while is_space (rev s)).
Definition strip (s : string) : string := rstrip (lstrip s).

(** [s.split(sep)] for a one-character separator: never the empty list. *)
Fixpoint split (sep : ascii) (s : string) : list string :=
  match s with
  | EmptyString => [EmptyString]
  | String c s' =>
      if Ascii.eqb c sep then EmptyString :: split sep s'
      else match split sep s' with
           | p :: ps => String c p :: ps
           | [] => [String c EmptyString]
           end
  end.

(** [s.partition(sep)] for a one-character separator, as
    [Some (before, after)], and [None] when [sep] does not occur. *)
Fixpoint cut (sep : ascii) (s : string) : option (string * string) :=
  match s with
  | EmptyString => None
  | String c s' =>
      if Ascii.eqb c sep then Some (EmptyString, s')
      else match cut sep s' with
           | Some (a, b) => Some (String c a, b)
           | None => None
           end
  end.

(** [s.rpartition(sep)], same convention. *)
Fixpoint rcut (sep : ascii) (s : string) : option (string * string) :=
  match s with
  | EmptyString => None
  | String c s' =>
      match rcut sep s' with
      | Some (a, b) => Some (String c a, b)
      | None => if Ascii.eqb c sep then Some (EmptyString, s') else None
      end
  end.

(** [s.replace(old, new)] for a non-empty [old]: occurrences are found
    from the left and do not overlap.  [skip] counts the characters of
    an occurrence that are still to be passed over. *)
Fixpoint replace_from (old new : string) (skip : nat) (s : string) : string :=
  match s with
  | EmptyString => EmptyString
  | String c s' =>
      match skip with
      | S k => replace_from old new k s'
      | O =>
          if String.prefix old s
          then new ++ replace_from old new (String.length old - 1) s'
          else String c (replace_from old new 0 s')
      end
  end.

(** With an empty [old] Python inserts [new] before every character and
    at the end. *)
Fixpoint interleave (new s : string) : string :=
  match s with
  | EmptyString => new
  | String c s' => new ++ String c (interleave new s')
  end.

Definition replace (old new s : string) : string :=
  match old with
  | EmptyString => interleave new s
  | String _ _ => replace_from old new 0 s
  end.

(** [sep.join(parts)] *)
Fixpoint join (sep : string) (parts : list string) : string :=
  match parts with
  | [] => EmptyString
  | [p] => p
  | p :: ps => p ++ sep ++ join sep ps
  end.

Definition inb (s : string) (l : list string) : bool :=
  existsb (String.eqb s) l.

Definition is_cr (c : ascii) : bool := Nat.eqb (code c) 13.
Definition is_lf (c : ascii) : bool := Nat.eqb (code c) 10.

(** What reading in text mode makes of the line ends (universal
    newlines): a carriage return followed by a line feed, and a carriage
    return alone, become a line feed. *)
Fixpoint universal_newlines (s : string) : string :=
  match s with
  | EmptyString => EmptyString
  | String c s' =>
      if is_cr c then
        match s' with
        | String d s'' =>
            if is_lf d then String d (universal_newlines s'')
            else String (ascii_of_nat 10) (universal_newlines s')
        | EmptyString => String (ascii_of_nat 10) EmptyString
        end
      else String c (universal_newlines s')
  end.

End Str.

(** * Python [re]: a backtracking matcher

    The constructs used by the patterns of [dl.py]: literals, character
    classes, concatenation, ordered alternation, the greedy [?], and the
    greedy [*] and [+] applied to a character class.  [run] explores the
    alternatives in the order of the [re] module (the longest repetition
    first, the left branch of [|] first) and stops at the first success. *)

Module Re.

Inductive item : Type :=
| Lit (c : ascii)
| Range (lo hi : ascii)
| Space.

Inductive re : Type :=
| Eps
| Chr (c : ascii)
| Cls (neg : bool) (items : list item)
| Seq (r1 r2 : re)
| Alt (r1 r2 : re)
| Opt (r : re)
| Star (neg : bool) (items : list item)
| Plus (neg : bool) (items : list item).

Section Matcher.

(** [re.IGNORECASE].  On the code points below 256 two characters are
    taken for one another exactly when [str.lower] gives the same for
    both.  (Above that range, which the model leaves out, the flag also
    takes U+0130 and U+0131 for i, U+017F for s and U+212A for k.) *)
Variable icase : bool.

Definition fold_case (c : ascii) : ascii :=
  if icase then Str.lower_char c else c.

Definition chr_ok (c d : ascii) : bool :=
  Ascii.eqb (fold_case d) (fold_case c).

Definition item_ok (it : item) (d : ascii) : bool :=
  match it with
  | Lit c => chr_ok c d
  | Range lo hi =>
      existsb (fun n => chr_ok (ascii_of_nat n) d)
              (seq (Str.code lo) (Str.code hi + 1 - Str.code lo))
  | Space => Str.is_space d
  end.

Definition cls_ok (neg : bool) (items : list item) (d : ascii) : bool :=
  xorb neg (existsb (fun it => item_ok it d) items).

Context {R : Type}.

(** The continuation receives the text matched so far by the construct
    and the rest of the subject. *)
Fixpoint star (ok : ascii -> bool) (s : string)
    (k : string -> string -> option R) : option R :=
  match s with
  | String d s' =>
      if ok d then
        match star ok s' (fun x rest => k (String d x) rest) with
        | Some v => Some v
        | None => k EmptyString s
        end
      else k EmptyString s
  | EmptyString => k EmptyString s
  end.

Definition plus (ok : ascii -> bool) (s : string)
    (k : string -> string -> option R) : option R :=
  match s with
  | String d s' =>
      if ok d then star ok s' (fun x rest => k (String d x) rest) else None
  | EmptyString => None
  end.

Definition one (ok : ascii -> bool) (s : string)
    (k : string -> string -> option R) : option R :=
  match s with
  | String d s' => if ok d then k (String d EmptyString) s' else None
  | EmptyString => None
  end.

Fixpoint run (r : re) (s : string)
    (k : string -> string -> option R) : option R :=
  match r with
  | Eps => k EmptyString s
  | Chr c => one (chr_ok c) s k
  | Cls neg items => one (cls_ok neg items) s k
  | Seq r1 r2 =>
      run r1 s (fun x s1 => run r2 s1 (fun y s2 => k (x ++ y) s2))
  | Alt r1 r2 =>
      match run r1 s k with
      | Some v => Some v
      | None => run r2 s k
      end
  | Opt r1 =>
      match run r1 s k with
      | Some v => Some v
      | None => k EmptyString s
      end
  | Star neg items => star (cls_ok neg items) s k
  | Plus neg items => plus (cls_ok neg items) s k
  end.

(** The strings a construct can match. *)
Inductive lang : re -> string -> Prop :=
| LEps : lang Eps EmptyString
| LChr c d : chr_ok c d = true -> lang (Chr c) (String d EmptyString)
| LCls neg items d :
    cls_ok neg items d = true -> lang (Cls neg items) (String d EmptyString)
| LSeq r1 r2 x y : lang r1 x -> lang r2 y -> lang (Seq r1 r2) (x ++ y)
| LAltL r1 r2 x : lang r1 x -> lang (Alt r1 r2) x
| LAltR r1 r2 x : lang r2 x -> lang (Alt r1 r2) x
| LOptNone r1 : lang (Opt r1) EmptyString
| LOptSome r1 x : lang r1 x -> lang (Opt r1) x
| LStar neg items x :
    Str.forallb (cls_ok neg items) x = true -> lang (Star neg items) x
| LPlus neg items d x :
    cls_ok neg items d = true ->
    Str.forallb (cls_ok neg items) x = true ->
    lang (Plus neg items) (String d x).

End Matcher.

(** A compiled pattern with one capturing group: [before(group)after],
    and the flag [re.IGNORECASE]. *)
Record pattern : Type := {
  icase : bool;
  before : re;
  group : re;
  after : re
}.

(** [pattern.match(s)]: the text of the group and what follows the match. *)
Definition match_at (p : pattern) (s : string) : option (string * string) :=
  run (icase p) (before p) s (fun _ s1 =>
  run (icase p) (group p) s1 (fun g s2 =>
  run (icase p) (after p) s2 (fun _ s3 => Some (g, s3)))).

(** [pattern.findall(s)]: the group of every match, from the left, the
    search resuming where the previous match ended.  [skip] counts the
    characters of the last match still to be passed over.  (No pattern of
    [dl.py] matches the empty string.) *)
Fixpoint scan (p : pattern) (skip : nat) (s : string) {struct s} : list string :=
  match skip with
  | S n =>
      match s with
      | String _ s' => scan p n s'
      | EmptyString => []
      end
  | O =>
      match match_at p s with
      | Some (g, rest) =>
          g :: match s with
               | String _ s' =>
                   scan p (String.length s - String.length rest - 1) s'
               | EmptyString => []
               end
      | None =>
          match s with
          | String _ s' => scan p 0 s'
          | EmptyString => []
          end
      end
  end.

Definition findall (p : pattern) (s : string) : list string := scan p 0 s.

(** [pattern.sub(repl, s)] with a literal [repl]: every match is replaced,
    whole. *)
Fixpoint sub_from (p : pattern) (repl : string) (skip : nat) (s : string)
    {struct s} : string :=
  match s with
  | EmptyString => EmptyString
  | String c s' =>
      match skip with
      | S n => sub_from p repl n s'
      | O =>
          match match_at p s with
          | Some (_, rest) =>
              repl ++ sub_from p repl (String.length s - String.length rest - 1) s'
          | None => String c (sub_from p repl 0 s')
          end
      end
  end.

Definition sub (p : pattern) (repl s : string) : string := sub_from p repl 0 s.

(** A word, letter by letter, and [w1|w2|...]. *)
Fixpoint lit (w : string) : re :=
  match w with
  | EmptyString => Eps
  | String c w' => Seq (Chr c) (lit w')
  end.

Fixpoint alts (ws : list string) : re :=
  match ws with
  | [] => Eps
  | [w] => lit w
  | w :: ws' => Alt (lit w) (alts ws')
  end.

Fixpoint cat (rs : list re) : re :=
  match rs with
  | [] => Eps
  | [r] => r
  | r :: rs' => Seq r (cat rs')
  end.

End Re.

(** * The constants and patterns of [dl.py] *)

Definition dquote : ascii := ascii_of_nat 34.
Definition squote : ascii := ascii_of_nat 39.
Definition backslash : ascii := ascii_of_nat 92.

Definition image_extensions : list string :=
  [".svg"; ".jpg"; ".jpeg"; ".png"; ".gif"; ".webp"; ".ico"; ".bmp"; ".avif"].
Definition font_extensions : list string := [".woff"; ".woff2"].
Definition pdf_extensions : list string := [".pdf"].
Definition video_extensions : list string := [".webm"].

(** [ext.strip('.')] *)
Definition strip_dots (ext : string) : string :=
  let is_dot := Ascii.eqb "." in
  Str.rev (Str.drop_while is_dot (Str.rev (Str.drop_while is_dot ext))).

(** ['|'.join(ext.strip('.') for ext in exts)] inside [(?:...)] *)
Definition ext_alternation (exts : list string) : Re.re :=
  Re.alts (List.map strip_dots exts).

(** [https?://[^Q'>]+\.(?:...)], where Q stands for the double quote. *)
Definition html_url (exts : list string) : Re.re :=
  Re.cat [Re.lit "http"; Re.Opt (Re.Chr "s"); Re.lit "://";
          Re.Plus true [Re.Lit dquote; Re.Lit squote; Re.Lit ">"];
          Re.Chr "."; ext_alternation exts].

Definition html_pattern (exts : list string) : Re.pattern :=
  {| Re.icase := true; Re.before := Re.Eps;
     Re.group := html_url exts; Re.after := Re.Eps |}.

Definition html_img_pattern : Re.pattern := html_pattern image_extensions.
Definition html_pdf_pattern : Re.pattern := html_pattern pdf_extensions.
Definition html_video_pattern : Re.pattern := html_pattern video_extensions.

(** [srcset\s*=\s*Q([^Q]+)Q] *)
Definition srcset_pattern : Re.pattern :=
  {| Re.icase := true;
     Re.before := Re.cat [Re.lit "srcset"; Re.Star false [Re.Space]; Re.Chr "=";
                          Re.Star false [Re.Space]; Re.Chr dquote];
     Re.group := Re.Plus true [Re.Lit dquote];
     Re.after := Re.Chr dquote |}.

(** [http[s]?://[^Q')]+\.(?:...)] *)
Definition css_url (exts : list string) : Re.re :=
  Re.cat [Re.lit "http"; Re.Opt (Re.Cls false [Re.Lit "s"]); Re.lit "://";
          Re.Plus true [Re.Lit dquote; Re.Lit squote; Re.Lit ")"];
          Re.Chr "."; ext_alternation exts].

(** [url\([Q']?(...)[Q']?\)] over the image and font extensions *)
Definition css_asset_pattern : Re.pattern :=
  {| Re.icase := true;
     Re.before := Re.cat [Re.lit "url"; Re.Chr "(";
                          Re.Opt (Re.Cls false [Re.Lit dquote; Re.Lit squote])];
     Re.group := css_url (image_extensions ++ font_extensions)%list;
     Re.after := Re.cat [Re.Opt (Re.Cls false [Re.Lit dquote; Re.Lit squote]);
                         Re.Chr ")"] |}.

(** [[^A-Za-z0-9._-]], compiled without flags *)
Definition unsafe_char_pattern : Re.pattern :=
  {| Re.icase := false; Re.before := Re.Eps;
     Re.group := Re.Cls true [Re.Range "A" "Z"; Re.Range "a" "z";
                              Re.Range "0" "9"; Re.Lit "."; Re.Lit "_";
                              Re.Lit "-"];
     Re.after := Re.Eps |}.

(** A text between double quotes. *)
Definition quoted (s : string) : string :=
  String dquote (s ++ String dquote EmptyString).

(** * [urllib.parse.urlparse(url).path]

    The steps of [urlsplit] and [urlparse] that decide the path
    component.  [urlsplit] raises [ValueError] for a network location with
    unbalanced square brackets, and for one with balanced brackets that it
    does not accept as an IP literal; that last test belongs to the
    [ipaddress] module and is the parameter [ip_literal_ok]. *)

Module Url.

Definition c0_control_or_space (c : ascii) : bool := Nat.leb (Str.code c) 32.

(** tab, carriage return and line feed are removed from the url *)
Definition unsafe_byte (c : ascii) : bool :=
  Nat.eqb (Str.code c) 9 || Nat.eqb (Str.code c) 13 || Nat.eqb (Str.code c) 10.

Definition scheme_char (c : ascii) : bool :=
  Str.is_alpha c || Str.is_digit c || Str.mem c "+-.".

Definition uses_params : list string :=
  [""; "ftp"; "hdl"; "prospero"; "http"; "imap"; "https"; "shttp"; "rtsp";
   "rtsps"; "rtspu"; "sip"; "sips"; "mms"; "sftp"; "tel"].

(** The scheme (lower-cased) and what follows its colon. *)
Definition split_scheme (url : string) : string * string :=
  match Str.cut ":" url with
  | Some (String c0 _ as sch, rest) =>
      if Str.is_alpha c0 && Str.forallb scheme_char sch
      then (Str.lower sch, rest)
      else (EmptyString, url)
  | _ => (EmptyString, url)
  end.

Definition netloc_end (c : ascii) : bool := Str.mem c "/?#".

(** After [//], the network location runs to the first of [/], [?], [#]. *)
Definition split_netloc (url : string) : string * string :=
  if Str.startswith "//" url then
    let r := Str.drop 2 url in
    (Str.take_while (fun c => negb (netloc_end c)) r,
     Str.drop_while (fun c => negb (netloc_end c)) r)
  else (EmptyString, url).

Definition netloc_accepted (ip_literal_ok : string -> bool) (netloc : string) : bool :=
  let opening := Str.mem "[" netloc in
  let closing := Str.mem "]" netloc in
  if opening && closing then ip_literal_ok netloc
  else negb (opening || closing).

Definition before (sep : ascii) (s : string) : string :=
  match Str.cut sep s with
  | Some (a, _) => a
  | None => s
  end.

(** [_splitparams]: the parameters start at the first [;] of the last
    path segment. *)
Definition split_params (url : string) : string :=
  match Str.rcut "/" url with
  | Some (head, tail) =>
      match Str.cut ";" tail with
      | Some (a, _) => head ++ "/" ++ a
      | None => url
      end
  | None => before ";" url
  end.

(** [None] stands for [ValueError]. *)
Definition path (ip_literal_ok : string -> bool) (url : string) : option string :=
  let url := Str.drop_while c0_control_or_space url in
  let url := Str.filter (fun c => negb (unsafe_byte c)) url in
  let '(scheme, url) := split_scheme url in
  let '(netloc, url) := split_netloc url in
  if netloc_accepted ip_literal_ok netloc then
    let url := before "#" url in
    let url := before "?" url in
    Some (if Str.inb scheme uses_params && Str.mem ";" url
          then split_params url else url)
  else None.

End Url.

(** * [os.path] (POSIX) *)

Module OsPath.

(** [os.path.basename] *)
Definition basename (p : string) : string :=
  match Str.rcut "/" p with
  | Some (_, t) => t
  | None => p
  end.

(** [os.path.splitext(p)[1]]: from the last dot of the base name, unless
    only dots precede it. *)
Definition ext (p : string) : string :=
  match Str.rcut "." (basename p) with
  | Some (pre, post) =>
      if Str.forallb (Ascii.eqb ".") pre then EmptyString else String "." post
  | None => EmptyString
  end.

(** A path below the project root, by its components. *)
Definition path : Type := list string.

Definition special (name : string) : bool :=
  String.eqb name "" || String.eqb name "." || String.eqb name "..".

(** [os.path.relpath(os.path.join(folder, name), project_root)] for a
    folder given by its components (none of them [.] or [..]) and a name
    without separator: an empty name and [.] stand for the folder, [..]
    for its parent. *)
Definition rel_components (folder : path) (name : string) : path :=
  if String.eqb name "" || String.eqb name "." then folder
  else if String.eqb name ".." then
    match folder with
    | [] => [".."]
    | _ => removelast folder
    end
  else (folder ++ [name])%list.

Definition relpath (folder : path) (name : string) : string :=
  match rel_components folder name with
  | [] => "."
  | comps => Str.join "/" comps
  end.

End OsPath.

(** * The file tree below the project root *)

Module Fs.

#[warnings="-register-all"]
Inductive node : Type :=
| File (data : string)
| Dir (entries : list (string * node)).

Fixpoint assoc (k : string) (l : list (string * node)) : option node :=
  match l with
  | [] => None
  | (k', v) :: l' => if String.eqb k k' then Some v else assoc k l'
  end.

(** An existing entry keeps its place, a new one comes last. *)
Fixpoint put (k : string) (v : node) (l : list (string * node))
    : list (string * node) :=
  match l with
  | [] => [(k, v)]
  | (k', v') :: l' =>
      if String.eqb k k' then (k, v) :: l' else (k', v') :: put k v l'
  end.

Fixpoint lookup (p : OsPath.path) (n : node) : option node :=
  match p with
  | [] => Some n
  | c :: p' =>
      match n with
      | Dir es =>
          match assoc c es with
          | Some m => lookup p' m
          | None => None
          end
      | File _ => None
      end
  end.

Definition is_dir (p : OsPath.path) (n : node) : bool :=
  match lookup p n with
  | Some (Dir _) => true
  | _ => false
  end.

(** [os.path.exists(os.path.join(folder, name))] for a name without
    separator. *)
Definition exists_in (folder : OsPath.path) (name : string) (n : node) : bool :=
  if OsPath.special name then is_dir folder n
  else match lookup (folder ++ [name])%list n with
       | Some _ => true
       | None => false
       end.

(** The longest file name that the file system takes, in bytes. *)
Definition name_max : nat := 255.

(** The bytes of a name on disk, in UTF-8: one for a code point below
    128, two for the others. *)
Fixpoint byte_length (name : string) : nat :=
  match name with
  | EmptyString => 0
  | String c name' =>
      (if Nat.ltb (Str.code c) 128 then 1 else 2) + byte_length name'
  end.

Definition name_ok (name : string) : bool :=
  Nat.leb (byte_length name) name_max.
Arguments name_ok : simpl never.

(** Opening [p] for writing and storing [data]: the parent must be a
    directory, [p] itself must not be one, and its name must not be
    longer than [name_max]. *)
Fixpoint write (p : OsPath.path) (data : string) (n : node) : option node :=
  match n, p with
  | Dir es, [name] =>
      match assoc name es with
      | Some (Dir _) => None
      | _ => if name_ok name then Some (Dir (put name (File data) es))
             else None
      end
  | Dir es, c :: p' =>
      match assoc c es with
      | Some m =>
          match write p' data m with
          | Some m' => Some (Dir (put c m' es))
          | None => None
          end
      | None => None
      end
  | _, _ => None
  end.

(** [os.makedirs(p, exist_ok=True)] *)
Fixpoint makedirs (p : OsPath.path) (n : node) : option node :=
  match n, p with
  | File _, _ => None
  | Dir _, [] => Some n
  | Dir es, c :: p' =>
      let child := match assoc c es with
                   | Some m => m
                   | None => Dir []
                   end in
      match makedirs p' child with
      | Some m' => Some (Dir (put c m' es))
      | None => None
      end
  end.

(** The directories in the order of [os.walk]: a directory before its
    sub-directories, these in the order of their entries. *)
Fixpoint dirs (here : OsPath.path) (n : node) : list OsPath.path :=
  match n with
  | File _ => []
  | Dir es =>
      here :: flat_map (fun e => dirs (here ++ [fst e])%list (snd e)) es
  end.

(** The names of the regular files of directory [d]. *)
Definition files (d : OsPath.path) (n : node) : list string :=
  match lookup d n with
  | Some (Dir es) =>
      flat_map (fun e => match snd e with File _ => [fst e] | Dir _ => [] end) es
  | _ => []
  end.

End Fs.

(** * The world outside the program *)

(** What [requests.get(url, stream=True, timeout=10)] and the iteration
    over the body come to: [Refused] is a [RequestException] raised by
    [get] itself; in [Reply status chunks complete] the chunks are those
    that [iter_content] delivers, and [complete = false] says that it
    then raises a [RequestException] instead of ending. *)
Inductive response : Type :=
| Refused
| Reply (status : nat) (chunks : list string) (complete : bool).

Record world : Type := {
  (** the answer to a request, given the requests made before it *)
  server : list string -> string -> response;
  (** whether [urlsplit] accepts a network location with brackets *)
  ip_literal_ok : string -> bool;
  (** the order in which a [set] of strings is iterated: a suggestion,
      see [set_iter] *)
  set_pick : list string -> list string
}.

(** The first occurrence of every string of [l] that is not in [seen]. *)
Fixpoint dedup (seen l : list string) : list string :=
  match l with
  | [] => []
  | x :: l' =>
      if Str.inb x seen then dedup seen l' else x :: dedup (x :: seen) l'
  end.

(** [for x in set(l)]: every element of [l] once.  The order of a set is
    not specified; here it is the one [set_pick] suggests for the
    elements it names, the others following in the order of their first
    occurrence.  Every enumeration without repetition of the elements of
    [l] is obtained for some [set_pick] ([set_iter_any_order]). *)
Definition set_iter (w : world) (l : list string) : list string :=
  dedup [] (List.filter (fun x => Str.inb x l) (set_pick w l) ++ l)%list.

(** The lines printed on the console. *)
Inductive message : Type :=
| AlreadyExists (file_name : string)
| Downloaded (file_name : string)
| FailedStatus (status : nat) (url : string)
| RequestFailed (url : string)
| Updated (file_path : OsPath.path)
| AllDone.

Record state : Type := {
  fs : Fs.node;                   (** the tree below [project_root] *)
  requests : list string;         (** the urls fetched, oldest first *)
  reads : list OsPath.path;       (** the files opened for reading *)
  out : list message              (** the console *)
}.

Definition with_fs (n : Fs.node) (st : state) : state :=
  {| fs := n; requests := requests st; reads := reads st; out := out st |}.

Definition add_request (url : string) (st : state) : state :=
  {| fs := fs st; requests := (requests st ++ [url])%list;
     reads := reads st; out := out st |}.

Definition add_read (p : OsPath.path) (st : state) : state :=
  {| fs := fs st; requests := requests st;
     reads := (reads st ++ [p])%list; out := out st |}.

Definition add_out (m : message) (st : state) : state :=
  {| fs := fs st; requests := requests st; reads := reads st;
     out := (out st ++ [m])%list |}.

(** * Computations: state and uncaught exceptions *)

Inductive exn : Type := ValueError | OSError.

Inductive result (A : Type) : Type :=
| Ret (a : A)
| Raise (e : exn).
Arguments Ret {A} a.
Arguments Raise {A} e.

Definition M (A : Type) : Type := state -> result A * state.

Definition ret {A : Type} (a : A) : M A := fun st => (Ret a, st).

Definition raise {A : Type} (e : exn) : M A := fun st => (Raise e, st).

Definition bind {A B : Type} (c : M A) (f : A -> M B) : M B :=
  fun st =>
    match c st with
    | (Ret a, st') => f a st'
    | (Raise e, st') => (Raise e, st')
    end.

Declare Scope py_scope.
Delimit Scope py_scope with py.
Notation "x <- c ;; k" := (bind c (fun x => k))
  (at level 61, c at next level, right associativity) : py_scope.
Notation "c ;; k" := (bind c (fun _ => k))
  (at level 61, right associativity) : py_scope.
Local Open Scope py_scope.

(** [for a in l: b = f(b, a)] *)
Fixpoint foldM {A B : Type} (f : B -> A -> M B) (l : list A) (b : B) : M B :=
  match l with
  | [] => ret b
  | a :: l' => b' <- f b a ;; foldM f l' b'
  end.

(** [for a in l: f(a)] *)
Fixpoint for_each {A : Type} (l : list A) (f : A -> M unit) : M unit :=
  match l with
  | [] => ret tt
  | a :: l' => f a ;; for_each l' f
  end.

Definition print (m : message) : M unit :=
  fun st => (Ret tt, add_out m st).

Definition path_exists (folder : OsPath.path) (name : string) : M bool :=
  fun st => (Ret (Fs.exists_in folder name (fs st)), st).

Definition requests_get (w : world) (url : string) : M response :=
  fun st => (Ret (server w (requests st) url), add_request url st).

(** [with open(p, mode) as f: f.write(...)], for both modes of writing *)
Definition write_file (p : OsPath.path) (data : string) : M unit :=
  fun st =>
    match Fs.write p data (fs st) with
    | Some n => (Ret tt, with_fs n st)
    | None => (Raise OSError, st)
    end.

(** [with open(p, "r", encoding="utf-8") as f: content = f.read()] *)
Definition read_file (p : OsPath.path) : M string :=
  fun st =>
    match Fs.lookup p (fs st) with
    | Some (Fs.File data) => (Ret (Str.universal_newlines data), add_read p st)
    | _ => (Raise OSError, st)
    end.

Definition makedirs (p : OsPath.path) : M unit :=
  fun st =>
    match Fs.makedirs p (fs st) with
    | Some n => (Ret tt, with_fs n st)
    | None => (Raise OSError, st)
    end.

(** The directories that [os.walk(top)] goes through. *)
Definition list_dirs (top : OsPath.path) : M (list OsPath.path) :=
  fun st =>
    match Fs.lookup top (fs st) with
    | Some n => (Ret (Fs.dirs top n), st)
    | None => (Ret [], st)
    end.

Definition list_files (d : OsPath.path) : M (list string) :=
  fun st => (Ret (Fs.files d (fs st)), st).

(** * [dl.py] *)

Definition project_root : OsPath.path := [].
Definition assets_folder : OsPath.path :=
  Eval cbv in (project_root ++ ["assets"])%list.
Definition fonts_folder : OsPath.path :=
  Eval cbv in (assets_folder ++ ["fonts"])%list.

(** Lines 12-13, executed when the module is loaded. *)
Definition startup : M unit :=
  makedirs assets_folder ;; makedirs fonts_folder.

(** The truth value of [local_path] in [if local_path:]. *)
Definition truthy (r : option string) : bool :=
  match r with
  | Some (String _ _) => true
  | _ => false
  end.

Definition normalize_separators (local_path : option string) : string :=
  match local_path with
  | Some p => Str.replace (String backslash "") "/" p
  | None => EmptyString
  end.

Section Program.

Variable w : world.

(** Lines 47-53: the name under which [file_url] is stored; [None] when
    [urlparse] raises [ValueError]. *)
Definition local_name (file_url : string) : option string :=
  let sanitized_url := Str.replace "%20" "" file_url in
  match Url.path (ip_literal_ok w) sanitized_url with
  | Some parsed_path =>
      let file_name := OsPath.basename parsed_path in
      let file_name := Str.replace "%20" "" file_name in
      let file_name := Re.sub unsafe_char_pattern "" file_name in
      Some file_name
  | None => None
  end.

Definition download_file (file_url : string) (target_folder : OsPath.path)
    : M (option string) :=
  match local_name file_url with
  | None => raise ValueError
  | Some file_name =>
      let local_path := (target_folder ++ [file_name])%list in
      found <- path_exists target_folder file_name ;;
      if found then
        print (AlreadyExists file_name) ;;
        ret (Some (OsPath.relpath target_folder file_name))
      else
        response <- requests_get w file_url ;;
        match response with
        | Reply status chunks complete =>
            if Nat.eqb status 200 then
              write_file local_path (String.concat "" chunks) ;;
              if complete then
                print (Downloaded file_name) ;;
                ret (Some (OsPath.relpath target_folder file_name))
              else
                print (RequestFailed file_url) ;;
                ret None
            else
              print (FailedStatus status file_url) ;;
              ret None
        | Refused =>
            print (RequestFailed file_url) ;;
            ret None
        end
  end.

(** Lines 81-82 and 98-99: fonts go to [fonts_folder], everything else to
    [assets_folder]; [None] when [urlparse] raises [ValueError]. *)
Definition folder_for (url : string) : option OsPath.path :=
  match Url.path (ip_literal_ok w) url with
  | Some parsed_path =>
      let ext := Str.lower (OsPath.ext parsed_path) in
      Some (if Str.inb ext font_extensions then fonts_folder else assets_folder)
  | None => None
  end.

(** [part.strip().split(' ')[0]] *)
Definition srcset_candidate (part : string) : string :=
  hd EmptyString (Str.split " " (Str.strip part)).

(** Lines 79-85, the body of the inner loop. *)
Definition srcset_part (content part : string) : M string :=
  let url := srcset_candidate part in
  if Str.startswith "http" url then
    match folder_for url with
    | Some folder =>
        local_path <- download_file url folder ;;
        if truthy local_path
        then ret (Str.replace url (normalize_separators local_path) content)
        else ret content
    | None => raise ValueError
    end
  else ret content.

Definition replace_urls_in_srcset (content : string) : M string :=
  let matches := Re.findall srcset_pattern content in
  foldM (fun content m => foldM srcset_part (Str.split "," m) content)
        matches content.

(** Lines 98-103, the body of the loop, on the pair of [content] and
    [modified]. *)
Definition reference (acc : string * bool) (url : string) : M (string * bool) :=
  match folder_for url with
  | Some folder =>
      local_path <- download_file url folder ;;
      if truthy local_path
      then ret (Str.replace url ("/" ++ normalize_separators local_path) (fst acc),
                true)
      else ret acc
  | None => raise ValueError
  end.

Definition replace_references (file_path : OsPath.path) (pattern : Re.pattern)
    : M unit :=
  content <- read_file file_path ;;
  content <- replace_urls_in_srcset content ;;
  let matches := Re.findall pattern content in
  acc <- foldM reference (set_iter w matches) (content, false) ;;
  if snd acc then
    write_file file_path (fst acc) ;;
    print (Updated file_path)
  else ret tt.

Definition is_html (file : string) : bool := Str.endswith ".html" (Str.lower file).
Definition is_css (file : string) : bool := Str.endswith ".css" (Str.lower file).

(** Lines 114-123, the body of the inner loop. *)
Definition process_file (root : OsPath.path) (file : string) : M unit :=
  let file_path := (root ++ [file])%list in
  if is_html file then
    replace_references file_path html_img_pattern ;;
    replace_references file_path html_pdf_pattern ;;
    replace_references file_path html_video_pattern
  else if is_css file then
    replace_references file_path css_asset_pattern
  else ret tt.

(** [os.walk] lists a directory when it reaches it.  No operation of the
    program creates or removes a directory once [startup] is over
    ([dirs_stable] below), so the directories are those of the start, in
    the order of [Fs.dirs]; the files of each are listed on arrival. *)
Definition process_files : M unit :=
  roots <- list_dirs project_root ;;
  for_each roots (fun root =>
    files <- list_files root ;;
    for_each files (process_file root)).

Definition main : M unit :=
  startup ;; process_files ;; print AllDone.

End Program.

(** * The vocabulary of the statements; worlds and trees for the examples *)

(** The url starts with [http://] or [https://], ends in one of [exts],
    both without regard to case, and has none of the characters [stop]. *)
Definition url_shape (exts : list string) (stop : list ascii) (url : string) : bool :=
  (Str.startswith "http://" (Str.lower url)
   || Str.startswith "https://" (Str.lower url))
  && existsb (fun e => Str.endswith e (Str.lower url)) exts
  && List.forallb (fun c => negb (Str.mem c url)) stop.

(** The characters that a match of [r] can contain. *)
Fixpoint may_contain (icase : bool) (r : Re.re) (d : ascii) : bool :=
  match r with
  | Re.Eps => false
  | Re.Chr c => Re.chr_ok icase c d
  | Re.Cls neg items | Re.Star neg items | Re.Plus neg items =>
      Re.cls_ok icase neg items d
  | Re.Seq r1 r2 | Re.Alt r1 r2 => may_contain icase r1 d || may_contain icase r2 d
  | Re.Opt r1 => may_contain icase r1 d
  end.

(** The extension lists of [dl.py] are in lower case and each extension
    is a dot followed by what [strip_dots] keeps. *)
Definition plain_exts (exts : list string) : bool :=
  List.forallb (fun e => String.eqb e ("." ++ strip_dots e)
                         && String.eqb (Str.lower e) e) exts.

Definition html_stop : list ascii := [dquote; squote; ">"%char].
Definition css_stop : list ascii := [dquote; squote; ")"%char].

(** No character that the expression [r] can match is in [stop]. *)
Definition excludes (r : Re.re) (stop : list ascii) : bool :=
  List.forallb
    (fun n => let d := ascii_of_nat n in
              implb (may_contain true r d) (negb (existsb (Ascii.eqb d) stop)))
    (seq 0 256).

(** The characters of [[A-Za-z0-9._-]]. *)
Definition safe_char (c : ascii) : bool :=
  Str.is_upper c || Str.is_lower c || Str.is_digit c || Str.mem c "._-".

(** The sanitized file name in the words of the specification: the base
    name of a url path with every [%20] removed and every character
    outside [[A-Za-z0-9._-]] dropped. *)
Definition sanitized_basename (url_path : string) : string :=
  Str.filter safe_char (Str.replace "%20" "" (OsPath.basename url_path)).

(** The local name when the words of the specification are applied to
    the path of the url as it is given. *)
Definition name_of_given_url (w : world) (url : string) : option string :=
  option_map sanitized_basename (Url.path (ip_literal_ok w) url).

Definition empty_state (n : Fs.node) : state :=
  {| fs := n; requests := []; reads := []; out := [] |}.

(** Every request is answered with status 200 and a two-chunk body. *)
Definition obliging_world : world :=
  {| server := fun _ _ => Reply 200 ["PNG"; "data"] true;
     ip_literal_ok := fun _ => true;
     set_pick := fun _ => [] |}.

(** Every request is answered with status 404. *)
Definition missing_world : world :=
  {| server := fun _ _ => Reply 404 ["Not Found"] true;
     ip_literal_ok := fun _ => true;
     set_pick := fun _ => [] |}.

(** Every request is answered with status 200, and the connection breaks
    after the first chunk of the body. *)
Definition flaky_world : world :=
  {| server := fun _ _ => Reply 200 ["PNG"] false;
     ip_literal_ok := fun _ => true;
     set_pick := fun _ => [] |}.

(** The request for a.png is answered with status 404, every other
    request with status 200. *)
Definition partial_world : world :=
  {| server := fun _ url =>
       if String.eqb url "http://cdn.test/a.png"
       then Reply 404 ["Not Found"] true
       else Reply 200 ["PNG"; "data"] true;
     ip_literal_ok := fun _ => true;
     set_pick := fun _ => [] |}.

(** A project with its two asset folders and nothing else. *)
Definition bare_tree : Fs.node :=
  Fs.Dir [("assets", Fs.Dir [("fonts", Fs.Dir [])])].

(** A project in which pic.jpg has been stored already. *)
Definition stocked_tree : Fs.node :=
  Fs.Dir [("assets", Fs.Dir [("fonts", Fs.Dir []);
                             ("pic.jpg", Fs.File "JPEG")])].

(** A page with a srcset of two entries. *)
Definition srcset_pair_tree : Fs.node :=
  Fs.Dir [("index.html",
           Fs.File ("<img srcset="
                    ++ quoted "http://cdn.test/a.png 1x, http://cdn.test/b.png 2x"
                    ++ ">"));
          ("assets", Fs.Dir [("fonts", Fs.Dir [])])].

Definition path_eqb (p q : OsPath.path) : bool :=
  if list_eq_dec string_dec p q then true else false.

(** The file of this path is a document: its name ends in .html or
    .css, without regard to case. *)
Definition doc_path (p : OsPath.path) : bool :=
  is_html (last p EmptyString) || is_css (last p EmptyString).

(** From [st] to [st'], outside the paths [allowed]: every file keeps
    its content, no file is opened for reading and none is reported as
    updated. *)
Definition frame (allowed : OsPath.path -> bool) (st st' : state) : Prop :=
  (forall q d, Fs.lookup q (fs st) = Some (Fs.File d) -> allowed q = false ->
               Fs.lookup q (fs st') = Some (Fs.File d)) /\
  (forall q, In q (reads st') -> In q (reads st) \/ allowed q = true) /\
  (forall q, In (Updated q) (out st') ->
             In (Updated q) (out st) \/ allowed q = true).

Definition keeps {A : Type} (R : state -> state -> Prop) (c : M A) : Prop :=
  forall st, R st (snd (c st)).

Definition nowhere : OsPath.path -> bool := fun _ => false.

(** The url has been stored: its folder and its name are defined and
    the name is present in the folder. *)
Definition stored (w : world) (n : Fs.node) (url : string) : bool :=
  match folder_for w url, local_name w url with
  | Some folder, Some name => Fs.exists_in folder name n
  | _, _ => false
  end.

(** What [srcset_part] does to the content when the url is stored. *)
Definition srcset_part_stored (w : world) (content part : string) : string :=
  let url := srcset_candidate part in
  if Str.startswith "http" url then
    match folder_for w url, local_name w url with
    | Some folder, Some name =>
        Str.replace url
          (normalize_separators (Some (OsPath.relpath folder name))) content
    | _, _ => content
    end
  else content.

(** The content after the srcset pass, when every url of the pass is
    stored. *)
Definition srcset_rewritten (w : world) (content : string) : string :=
  fold_left (fun content m =>
               fold_left (srcset_part_stored w) (Str.split "," m) content)
            (Re.findall srcset_pattern content) content.

(** Every srcset entry that starts with http is stored. *)
Definition srcset_stored (w : world) (n : Fs.node) (content : string) : bool :=
  List.forallb
    (fun m => List.forallb
                (fun part => let url := srcset_candidate part in
                             negb (Str.startswith "http" url) || stored w n url)
                (Str.split "," m))
    (Re.findall srcset_pattern content).

Definition no_match (pattern : Re.pattern) (content : string) : bool :=
  match Re.findall pattern content with
  | [] => true
  | _ :: _ => false
  end.

(** The patterns a file goes through, from its name. *)
Definition patterns_of (file : string) : list Re.pattern :=
  if is_html file then [html_img_pattern; html_pdf_pattern; html_video_pattern]
  else if is_css file then [css_asset_pattern]
  else [].

(** One call [replace_references(file_path, pattern)]. *)
Definition call (w : world) (c : OsPath.path * Re.pattern) : M unit :=
  replace_references w (fst c) (snd c).

(** The calls that the file [file] of directory [root] is due: one for
    each of its patterns, in their order. *)
Definition calls_of (root : OsPath.path) (file : string)
    : list (OsPath.path * Re.pattern) :=
  List.map (fun pattern => ((root ++ [file])%list, pattern)) (patterns_of file).

(** The document, of which [content] is the text as it is read, has
    nothing left to resolve: its srcset urls are stored and, once they
    are substituted, none of its patterns finds a url. *)
Definition settled_content (w : world) (n : Fs.node) (file content : string) : bool :=
  match patterns_of file with
  | [] => true
  | patterns =>
      srcset_stored w n content
      && List.forallb (fun p => no_match p (srcset_rewritten w content)) patterns
  end.

Definition settled_file (w : world) (n : Fs.node) (root : OsPath.path)
    (file : string) : bool :=
  match patterns_of file with
  | [] => true
  | _ =>
      match Fs.lookup (root ++ [file])%list n with
      | Some (Fs.File data) =>
          settled_content w n file (Str.universal_newlines data)
      | _ => false
      end
  end.

Definition settled (w : world) (n : Fs.node) : bool :=
  List.forallb
    (fun root => List.forallb (settled_file w n root) (Fs.files root n))
    (Fs.dirs [] n).

(** From [st] to [st']: the same tree, the same requests, and on the
    console nothing new but lines Already exists. *)
Definition quiet (st st' : state) : Prop :=
  fs st' = fs st /\
  requests st' = requests st /\
  (forall m, In m (out st') ->
             In m (out st) \/ exists name, m = AlreadyExists name).

(** On the tree [n], the computation returns [a] and is quiet. *)
Definition calm {A : Type} (n : Fs.node) (c : M A) (a : A) : Prop :=
  forall st, fs st = n -> exists st', c st = (Ret a, st') /\ quiet st st'.

(** A page with a srcset, an image and a style sheet with a font. *)
Definition site_tree : Fs.node :=
  Fs.Dir
    [("index.html",
      Fs.File ("<img srcset=" ++ quoted "http://cdn.test/a.png 1x, http://cdn.test/b.png 2x"
               ++ "> <img src=" ++ quoted "https://cdn.test/pic.jpg" ++ ">"));
     ("style.css", Fs.File ".a{background:url('https://cdn.test/font.woff2')}");
     ("notes.txt", Fs.File "see http://cdn.test/pic.jpg")].

(** A page whose image url directly follows the characters http:/ *)
Definition nested_url_tree : Fs.node :=
  Fs.Dir [("index.html",
           Fs.File ("<img src=" ++ quoted "http:/http://cdn.test/x.png" ++ ">"))].

(** A page in a sub-directory that is walked after assets; its image
    url has the base name x.html. *)
Definition late_page_tree : Fs.node :=
  Fs.Dir [("assets", Fs.Dir [("fonts", Fs.Dir [])]);
          ("sub",
           Fs.Dir [("index.html",
                    Fs.File ("<img src=" ++ quoted "http://cdn.test/x.html?y.png"
                             ++ ">"))])].

(** The request for x.html is answered with a page that has an image of
    its own, every other request with an image. *)
Definition page_world : world :=
  {| server := fun _ url =>
       if String.eqb url "http://cdn.test/x.html?y.png"
       then Reply 200 ["<img src=" ++ quoted "http://cdn.test/inner.png" ++ ">"]
                  true
       else Reply 200 ["PNG"; "data"] true;
     ip_literal_ok := fun _ => true;
     set_pick := fun _ => [] |}.

(** A name of 256 bytes, and one of 255. *)
Definition long_name : string := String.concat "" (List.repeat "a" 252) ++ ".png".
Definition longest_name : string := String.concat "" (List.repeat "a" 251) ++ ".png".

(** A page whose only reference is in a srcset. *)
Definition srcset_only_page : string :=
  "<img srcset=" ++ quoted "http://cdn.test/a.png 1x" ++ ">".

Definition srcset_only_tree : Fs.node :=
  Fs.Dir [("a.html", Fs.File srcset_only_page);
          ("assets", Fs.Dir [("fonts", Fs.Dir [])])].

(** A file stored by the program: directly in [assets_folder] or in
    [fonts_folder], under a name made of characters of [[A-Za-z0-9._-]]. *)
Definition asset_file (q : OsPath.path) : Prop :=
  exists name,
    (q = (assets_folder ++ [name])%list \/ q = (fonts_folder ++ [name])%list) /\
    Str.forallb safe_char name = true.

(** From [st] to [st']: every file is still a file, and every file is
    one that was there or a file stored by the program. *)
Definition files_grow (st st' : state) : Prop :=
  (forall q d, Fs.lookup q (fs st) = Some (Fs.File d) ->
               exists d', Fs.lookup q (fs st') = Some (Fs.File d')) /\
  (forall q d, Fs.lookup q (fs st') = Some (Fs.File d) ->
               (exists d', Fs.lookup q (fs st) = Some (Fs.File d')) \/
               asset_file q).

(** From [st] to [st'], every new request is for a url that starts,
    without regard to case, with http. *)
Definition requests_http (st st' : state) : Prop :=
  forall u, In u (requests st') ->
            In u (requests st) \/ Str.startswith "http" (Str.lower u) = true.

(** From [st] to [st'], every new request is for a url of [P]. *)
Definition requests_from (P : string -> Prop) (st st' : state) : Prop :=
  forall u, In u (requests st') -> In u (requests st) \/ P u.

(** The url is an entry of a srcset attribute of the content, and it
    starts with http. *)
Definition srcset_entry (content u : string) : Prop :=
  exists m part,
    In m (Re.findall srcset_pattern content) /\
    In part (Str.split "," m) /\
    srcset_candidate part = u /\
    Str.startswith "http" u = true.


(** The patterns that [process_files] passes to [replace_references]. *)
Definition program_patterns : list Re.pattern :=
  [html_img_pattern; html_pdf_pattern; html_video_pattern; css_asset_pattern].

(** [s] has an occurrence of [u]. *)
Definition occurs (u s : string) : Prop := exists a b, s = a ++ u ++ b.

(** Lines 47-53 on a base name: the two removals of the code. *)
Definition sanitize (file_name : string) : string :=
  Re.sub unsafe_char_pattern "" (Str.replace "%20" "" file_name).

(** From [st] to [st'], messages were only added to the output, and the
    closing message of [main] is not among them. *)
Definition says (st st' : state) : Prop :=
  exists l, out st' = (out st ++ l)%list /\ ~ In AllDone l.

(** * Checks of the library model *)

Example lower_ex : Str.lower "A%20b.PNG" = "a%20b.png".
Proof. reflexivity. Qed.

Example universal_newlines_ex :
  let cr := ascii_of_nat 13 in
  let lf := ascii_of_nat 10 in
  Str.universal_newlines
    (String "a" (String cr (String lf (String "b" (String cr (String "c"
      (String lf (String cr (String cr (String lf (String "d"
        (String cr ""))))))))))))
  = String "a" (String lf (String "b" (String lf (String "c" (String lf
      (String lf (String lf (String "d" (String lf ""))))))))).
Proof. reflexivity. Qed.

Example replace_ex : Str.replace "%20" "" "a%20b%2%200" = "ab%20".
Proof. reflexivity. Qed.

Example split_ex : Str.split "," "a, b,,c" = ["a"; " b"; ""; "c"].
Proof. reflexivity. Qed.

Example strip_ex : Str.strip "  a b  " = "a b".
Proof. reflexivity. Qed.

Example urlparse_ex1 :
  Url.path (fun _ => true) "https://example.com/a/b.PNG?x=1#f" = Some "/a/b.PNG".
Proof. reflexivity. Qed.

Example urlparse_ex2 :
  Url.path (fun _ => true) "http://x/a;p/b;q.png" = Some "/a;p/b".
Proof. reflexivity. Qed.

Example urlparse_ex3 : Url.path (fun _ => true) "http://[x/a.png" = None.
Proof. reflexivity. Qed.

Example urlparse_ex4 : Url.path (fun _ => true) "http://x/?a.png" = Some "/".
Proof. reflexivity. Qed.

Example ext_ex :
  List.map OsPath.ext ["/a/b.woff2"; "/a/.png"; "/a.b/c"; "/a/..png"; "x.tar.gz"]
  = [".woff2"; ""; ""; ""; ".gz"].
Proof. reflexivity. Qed.

Example relpath_ex :
  List.map (OsPath.relpath ["assets"; "fonts"]) ["f.woff"; ""; "."; ".."]
  = ["assets/fonts/f.woff"; "assets/fonts"; "assets/fonts"; "assets"].
Proof. reflexivity. Qed.

Example findall_ex1 :
  Re.findall html_img_pattern
    ("<img src=" ++ quoted "http:/http://cdn.test/x.png"
     ++ "> <a href='HTTPS://a/b.JPEG?x=1.gif'> http://a/x.png.pdf>")
  = ["http://cdn.test/x.png"; "HTTPS://a/b.JPEG?x=1.gif"; "http://a/x.png"].
Proof. reflexivity. Qed.

Example findall_ex2 :
  Re.findall html_img_pattern "http://a/x.jpeg http://a/y.jpgx"
  = ["http://a/x.jpeg http://a/y.jpg"].
Proof. reflexivity. Qed.

Example findall_ex3 :
  Re.findall css_asset_pattern
    (".a{background:url('https://cdn.test/font.woff2')} url(http://a/f.woff2x)"
     ++ " URL(" ++ quoted "http://a/i.ico" ++ ")")
  = ["https://cdn.test/font.woff2"; "http://a/i.ico"].
Proof. reflexivity. Qed.

Example findall_ex4 :
  Re.findall srcset_pattern
    ("<img SrcSet  = " ++ quoted "http://a/x.png 1x, http://a/y.png 2x" ++ ">")
  = ["http://a/x.png 1x, http://a/y.png 2x"].
Proof. reflexivity. Qed.

Example candidate_ex :
  List.map srcset_candidate (Str.split "," "http://a/x.png 1x, http://a/y.png 2x")
  = ["http://a/x.png"; "http://a/y.png"].
Proof. reflexivity. Qed.

(** * Facts about strings *)

Ltac inv H := inversion H; subst; clear H.

Lemma app_assoc_s (a b c : string) : (a ++ b) ++ c = a ++ b ++ c.
Proof. induction a; simpl; congruence. Qed.

Lemma prefix_app (p t : string) : String.prefix p (p ++ t) = true.
Proof.
  induction p as [|c p IH]; simpl.
  - now destruct t.
  - destruct (ascii_dec c c); [exact IH | congruence].
Qed.

Lemma endswith_refl (p : string) : Str.endswith p p = true.
Proof. destruct p; simpl; [reflexivity | now rewrite Ascii.eqb_refl, String.eqb_refl]. Qed.

Lemma endswith_app_r (a p b : string) :
  Str.endswith p b = true -> Str.endswith p (a ++ b) = true.
Proof.
  intros H; induction a as [|c a IH]; simpl; [assumption|].
  rewrite IH. apply orb_true_r.
Qed.

Lemma map_app (f : ascii -> ascii) (a b : string) :
  Str.map f (a ++ b) = Str.map f a ++ Str.map f b.
Proof. induction a; simpl; congruence. Qed.

Lemma forallb_app (f : ascii -> bool) (a b : string) :
  Str.forallb f (a ++ b) = Str.forallb f a && Str.forallb f b.
Proof. induction a; simpl; [reflexivity | now rewrite IHa, andb_assoc]. Qed.

Lemma forallb_impl (f g : ascii -> bool) (s : string) :
  (forall c, f c = true -> g c = true) ->
  Str.forallb f s = true -> Str.forallb g s = true.
Proof.
  intros Hfg; induction s as [|c s IH]; simpl; [reflexivity|].
  intros H; apply andb_true_iff in H as [H1 H2].
  now rewrite (Hfg _ H1), IH.
Qed.

Lemma forallb_not_mem (f : ascii -> bool) (c : ascii) (s : string) :
  Str.forallb f s = true -> f c = false -> Str.mem c s = false.
Proof.
  intros Hs Hc; induction s as [|d s IH]; simpl in *; [reflexivity|].
  apply andb_true_iff in Hs as [H1 H2].
  rewrite (IH H2), orb_false_r.
  destruct (Ascii.eqb_spec c d); [congruence | reflexivity].
Qed.

Lemma forallb_filter (f : ascii -> bool) (s : string) :
  Str.forallb f (Str.filter f s) = true.
Proof.
  induction s as [|c s IH]; simpl; [reflexivity|].
  destruct (f c) eqn:E; simpl; [now rewrite E|exact IH].
Qed.

(** * Facts about the matcher *)

Section MatcherFacts.

Variable icase : bool.

Lemma star_sound {R : Type} (ok : ascii -> bool) (s : string)
    (k : string -> string -> option R) (v : R) :
  Re.star ok s k = Some v ->
  exists x rest, s = x ++ rest /\ Str.forallb ok x = true /\ k x rest = Some v.
Proof.
  revert k; induction s as [|d s IH]; intros k H; simpl in H.
  - exists "", "". auto.
  - destruct (ok d) eqn:Hd.
    + destruct (Re.star ok s (fun x rest => k (String d x) rest)) eqn:E.
      * inv H. apply IH in E as (x & rest & -> & Hx & Hk).
        exists (String d x), rest. simpl. now rewrite Hd, Hx.
      * exists "", (String d s). auto.
    + exists "", (String d s). auto.
Qed.

Lemma one_sound {R : Type} (ok : ascii -> bool) (s : string)
    (k : string -> string -> option R) (v : R) :
  Re.one ok s k = Some v ->
  exists d rest, s = String d rest /\ ok d = true /\ k (String d "") rest = Some v.
Proof.
  destruct s as [|d s]; simpl; [discriminate|].
  destruct (ok d) eqn:Hd; [|discriminate].
  intros H. now exists d, s.
Qed.

Lemma run_sound {R : Type} (r : Re.re) :
  forall (s : string) (k : string -> string -> option R) (v : R),
  Re.run icase r s k = Some v ->
  exists x rest, s = x ++ rest /\ Re.lang icase r x /\ k x rest = Some v.
Proof.
  induction r as [|c|neg items|r1 IH1 r2 IH2|r1 IH1 r2 IH2|r1 IH1|neg items|neg items];
    intros s k v H; simpl in H.
  - exists "", s. repeat split; [constructor | assumption].
  - apply one_sound in H as (d & rest & -> & Hd & Hk).
    exists (String d ""), rest. repeat split; [now constructor | assumption].
  - apply one_sound in H as (d & rest & -> & Hd & Hk).
    exists (String d ""), rest. repeat split; [now constructor | assumption].
  - apply IH1 in H as (x & s1 & -> & Hx & H).
    apply IH2 in H as (y & s2 & -> & Hy & H).
    exists (x ++ y), s2. rewrite app_assoc_s.
    repeat split; [now constructor | assumption].
  - destruct (Re.run icase r1 s k) eqn:E.
    + inv H. apply IH1 in E as (x & rest & -> & Hx & Hk).
      exists x, rest. repeat split; [now apply Re.LAltL | assumption].
    + apply IH2 in H as (x & rest & -> & Hx & Hk).
      exists x, rest. repeat split; [now apply Re.LAltR | assumption].
  - destruct (Re.run icase r1 s k) eqn:E.
    + inv H. apply IH1 in E as (x & rest & -> & Hx & Hk).
      exists x, rest. repeat split; [now apply Re.LOptSome | assumption].
    + exists "", s. repeat split; [apply Re.LOptNone | assumption].
  - apply star_sound in H as (x & rest & -> & Hx & Hk).
    exists x, rest. repeat split; [now constructor | assumption].
  - unfold Re.plus in H. destruct s as [|d s]; [discriminate|].
    destruct (Re.cls_ok icase neg items d) eqn:Hd; [|discriminate].
    apply star_sound in H as (x & rest & -> & Hx & Hk).
    exists (String d x), rest. repeat split; [now constructor | assumption].
Qed.

End MatcherFacts.

(** A match found at the head of [s] splits [s] accordingly. *)
Lemma match_at_sound (p : Re.pattern) (s g rest : string) :
  Re.match_at p s = Some (g, rest) ->
  exists pre post,
    s = pre ++ g ++ post ++ rest /\
    Re.lang (Re.icase p) (Re.before p) pre /\
    Re.lang (Re.icase p) (Re.group p) g /\
    Re.lang (Re.icase p) (Re.after p) post.
Proof.
  unfold Re.match_at; intros H.
  apply run_sound in H as (pre & s1 & -> & Hpre & H).
  apply run_sound in H as (g' & s2 & -> & Hg & H).
  apply run_sound in H as (post & s3 & -> & Hpost & H).
  inv H. now exists pre, post.
Qed.

(** Every string returned by [findall] is the group of a match at some
    position of the subject. *)
Lemma scan_sound (p : Re.pattern) (g : string) :
  forall (s : string) (skip : nat),
  In g (Re.scan p skip s) ->
  exists a t rest, s = a ++ t /\ Re.match_at p t = Some (g, rest).
Proof.
  assert (shift : forall c s,
    (exists a t rest, s = a ++ t /\ Re.match_at p t = Some (g, rest)) ->
    exists a t rest, String c s = a ++ t /\ Re.match_at p t = Some (g, rest)).
  { intros c s (a & t & rest & -> & H). now exists (String c a), t, rest. }
  induction s as [|c s IH]; intros skip H.
  - destruct skip; simpl in H; [|contradiction].
    destruct (Re.match_at p "") as [[g' rest]|] eqn:E; [|contradiction].
    destruct H as [<-|[]]. now exists "", "", rest.
  - destruct skip; simpl in H.
    + destruct (Re.match_at p (String c s)) as [[g' rest]|] eqn:E.
      * destruct H as [<-|H]; [now exists "", (String c s), rest|].
        apply shift; eauto.
      * apply shift; eauto.
    + apply shift; eauto.
Qed.

Lemma findall_sound (p : Re.pattern) (s g : string) :
  In g (Re.findall p s) ->
  exists a pre post rest,
    s = a ++ pre ++ g ++ post ++ rest /\
    Re.lang (Re.icase p) (Re.group p) g.
Proof.
  intros H. apply scan_sound in H as (a & t & rest & -> & H).
  apply match_at_sound in H as (pre & post & -> & _ & Hg & _).
  now exists a, pre, post, rest.
Qed.

(** * The shape of the extracted urls *)

Lemma lang_chars (icase : bool) (r : Re.re) (x : string) :
  Re.lang icase r x -> Str.forallb (may_contain icase r) x = true.
Proof.
  induction 1; simpl; try reflexivity.
  - now rewrite H.
  - now rewrite H.
  - rewrite forallb_app. apply andb_true_iff; split.
    + eapply forallb_impl; [|eassumption]. intros c ->. reflexivity.
    + eapply forallb_impl; [|eassumption]. intros c ->. apply orb_true_r.
  - eapply forallb_impl; [|eassumption]. intros c ->. reflexivity.
  - eapply forallb_impl; [|eassumption]. intros c ->. apply orb_true_r.
  - assumption.
  - eapply forallb_impl; [|eassumption]. intros c Hc; exact Hc.
  - apply andb_true_iff; split; [exact H|].
    eapply forallb_impl; [|eassumption]. intros c Hc; exact Hc.
Qed.

Lemma lit_lower (w x : string) :
  Re.lang true (Re.lit w) x -> Str.lower x = Str.lower w.
Proof.
  revert x; induction w as [|c w IH]; intros x H; simpl in H.
  - now inv H.
  - inv H. inv H2. apply Ascii.eqb_eq in H0. simpl in H0 |- *.
    unfold Str.lower in *. simpl. rewrite H0. f_equal. now apply IH.
Qed.

Lemma alts_lower (ws : list string) (x : string) :
  ws <> [] -> Re.lang true (Re.alts ws) x ->
  exists w, In w ws /\ Str.lower x = Str.lower w.
Proof.
  induction ws as [|w ws IH]; intros Hne H; [congruence|].
  destruct ws as [|w' ws].
  - exists w. split; [now left | now apply lit_lower].
  - change (Re.alts (w :: w' :: ws)) with (Re.Alt (Re.lit w) (Re.alts (w' :: ws))) in H.
    inv H.
    + exists w. split; [now left | now apply lit_lower].
    + destruct IH as (v & Hv & E); [discriminate | assumption |].
      exists v. split; [now right | assumption].
Qed.

Lemma dot_only (x : string) : Re.lang true (Re.Chr ".") x -> x = ".".
Proof.
  intros H; inv H. f_equal.
  destruct d as [[] [] [] [] [] [] [] []]; vm_compute in H1; congruence.
Qed.

Lemma letter_s (d : ascii) :
  Str.lower_char d = "s"%char -> Str.lower (String d "") = "s".
Proof. intros H. unfold Str.lower; simpl. now rewrite H. Qed.

Lemma plain_exts_in (exts : list string) (w : string) :
  plain_exts exts = true -> In w (List.map strip_dots exts) ->
  exists e, In e exts /\ e = "." ++ Str.lower w.
Proof.
  intros Hp Hw. apply in_map_iff in Hw as (e & <- & He).
  unfold plain_exts in Hp. rewrite forallb_forall in Hp.
  specialize (Hp e He). apply andb_true_iff in Hp as [H1 H2].
  apply String.eqb_eq in H1, H2. exists e. split; [assumption|].
  rewrite <- H2 at 1. rewrite H1 at 1. unfold Str.lower.
  now rewrite map_app.
Qed.

(** The common form of the two url expressions: [http], an optional [s],
    [://], a non-empty run outside [stop], a dot and an extension. *)
Lemma url_form (opt_s : Re.re) (stop : list Re.item) (exts : list string)
    (url : string) :
  (forall x, Re.lang true opt_s x -> Str.lower x = "s") ->
  exts <> [] -> plain_exts exts = true ->
  Re.lang true
    (Re.cat [Re.lit "http"; Re.Opt opt_s; Re.lit "://"; Re.Plus true stop;
             Re.Chr "."; ext_alternation exts]) url ->
  (Str.startswith "http://" (Str.lower url)
   || Str.startswith "https://" (Str.lower url)) = true /\
  existsb (fun e => Str.endswith e (Str.lower url)) exts = true.
Proof.
  intros Hs Hne Hp H.
  change (Re.cat ?l) with
    (Re.Seq (Re.lit "http") (Re.Seq (Re.Opt opt_s) (Re.Seq (Re.lit "://")
      (Re.Seq (Re.Plus true stop) (Re.Seq (Re.Chr ".") (ext_alternation exts))))))
    in H.
  inversion H as [| | |? ? x1 y1 Hhttp H1| | | | | |]; subst; clear H.
  inversion H1 as [| | |? ? x2 y2 Hopt H2| | | | | |]; subst; clear H1.
  inversion H2 as [| | |? ? x3 y3 Hsep H3| | | | | |]; subst; clear H2.
  inversion H3 as [| | |? ? x4 y4 Hrun H4| | | | | |]; subst; clear H3.
  inversion H4 as [| | |? ? x5 y5 Hdot Hext| | | | | |]; subst; clear H4.
  apply (lit_lower "http") in Hhttp. apply (lit_lower "://") in Hsep.
  apply dot_only in Hdot; subst x5.
  apply alts_lower in Hext as (w & Hw & Ew);
    [|unfold ext_alternation; destruct exts; [congruence|discriminate]].
  destruct (plain_exts_in exts w Hp Hw) as (e & He & ->).
  unfold Str.startswith, Str.lower in *.
  rewrite !map_app, Hhttp, Hsep. split.
  - inv Hopt.
    + change (Str.map Str.lower_char "http" ++ Str.map Str.lower_char "" ++
              Str.map Str.lower_char "://" ++ ?t) with ("http://" ++ t).
      now rewrite (prefix_app "http://").
    + apply Hs in H0. unfold Str.lower in H0. rewrite H0.
      change (Str.map Str.lower_char "http" ++ "s" ++
              Str.map Str.lower_char "://" ++ ?t) with ("https://" ++ t).
      rewrite (prefix_app "https://"). apply orb_true_r.
  - apply existsb_exists. exists ("." ++ Str.map Str.lower_char w).
    split; [assumption|].
    rewrite Ew. change (Str.map Str.lower_char "." ++ ?t) with ("." ++ t).
    do 4 apply endswith_app_r. apply endswith_refl.
Qed.

Lemma all_chars (P : ascii -> bool) :
  List.forallb (fun n => P (ascii_of_nat n)) (seq 0 256) = true ->
  forall d, P d = true.
Proof.
  intros H d. rewrite forallb_forall in H.
  rewrite <- (ascii_nat_embedding d). apply H.
  apply in_seq. pose proof (nat_ascii_bounded d). lia.
Qed.

Lemma excludes_avoids (r : Re.re) (stop : list ascii) (url : string) :
  excludes r stop = true -> Re.lang true r url ->
  List.forallb (fun c => negb (Str.mem c url)) stop = true.
Proof.
  intros He Hl. apply forallb_forall. intros c Hc.
  apply negb_true_iff.
  apply forallb_not_mem with (f := may_contain true r);
    [now apply lang_chars|].
  pose proof (all_chars
    (fun d => implb (may_contain true r d) (negb (existsb (Ascii.eqb d) stop)))
    He c) as Hd. simpl in Hd.
  destruct (may_contain true r c); [|reflexivity].
  simpl in Hd. apply negb_true_iff in Hd.
  assert (existsb (Ascii.eqb c) stop = true) as E; [|congruence].
  apply existsb_exists. exists c. split; [assumption | apply Ascii.eqb_refl].
Qed.

Lemma html_url_shape (exts : list string) (url : string) :
  exts <> [] -> plain_exts exts = true ->
  excludes (html_url exts) html_stop = true ->
  Re.lang true (html_url exts) url ->
  url_shape exts html_stop url = true.
Proof.
  intros Hne Hp He H. unfold url_shape.
  destruct (url_form (Re.Chr "s")
              [Re.Lit dquote; Re.Lit squote; Re.Lit ">"] exts url) as [H1 H2];
    try assumption.
  - intros x Hx. inversion Hx as [|c d Hd| | | | | | | |]; subst.
    apply letter_s. unfold Re.chr_ok, Re.fold_case in Hd.
    apply Ascii.eqb_eq in Hd. exact Hd.
  - rewrite H1, H2. apply (excludes_avoids (html_url exts) html_stop url He H).
Qed.

Lemma css_url_shape (exts : list string) (url : string) :
  exts <> [] -> plain_exts exts = true ->
  excludes (css_url exts) css_stop = true ->
  Re.lang true (css_url exts) url ->
  url_shape exts css_stop url = true.
Proof.
  intros Hne Hp He H. unfold url_shape.
  destruct (url_form (Re.Cls false [Re.Lit "s"])
              [Re.Lit dquote; Re.Lit squote; Re.Lit ")"] exts url) as [H1 H2];
    try assumption.
  - intros x Hx. inversion Hx as [| |neg items d Hd| | | | | | |]; subst.
    apply letter_s. unfold Re.cls_ok, Re.item_ok, Re.chr_ok, Re.fold_case in Hd.
    simpl in Hd. rewrite orb_false_r in Hd.
    apply Ascii.eqb_eq in Hd. exact Hd.
  - rewrite H1, H2. apply (excludes_avoids (css_url exts) css_stop url He H).
Qed.

Lemma findall_all (p : Re.pattern) (P : string -> bool) (content : string) :
  (forall url, Re.lang (Re.icase p) (Re.group p) url -> P url = true) ->
  List.forallb P (Re.findall p content) = true.
Proof.
  intros H. apply forallb_forall. intros url Hin.
  apply findall_sound in Hin as (a & pre & post & rest & _ & Hl). now apply H.
Qed.

(** C8, as the code has it, for a text in the range of this
    development: every character of [content] is a code point below
    U+0100.  Every url extracted by one of the four patterns starts with
    http:// or https:// and ends in an extension of the pattern's list,
    both without regard to case.  A url extracted by one of the three
    HTML patterns contains no double quote, no single quote and no [>];
    a url extracted by the CSS pattern contains no double quote, no
    single quote and no closing parenthesis (it may contain [>]).
    (Beyond that range [re.IGNORECASE] takes U+0130 and U+0131 for the
    letter i and U+017F for the letter s; a url extracted with one of
    them in its prefix or extension has no lower-case form of this
    shape.) *)
Theorem extracted_url_shape (content : string) :
  List.forallb (url_shape image_extensions html_stop)
    (Re.findall html_img_pattern content) = true /\
  List.forallb (url_shape pdf_extensions html_stop)
    (Re.findall html_pdf_pattern content) = true /\
  List.forallb (url_shape video_extensions html_stop)
    (Re.findall html_video_pattern content) = true /\
  List.forallb (url_shape (image_extensions ++ font_extensions)%list css_stop)
    (Re.findall css_asset_pattern content) = true.
Proof.
  repeat split; apply findall_all; intros url H.
  - apply html_url_shape; [discriminate | reflexivity | now vm_compute | exact H].
  - apply html_url_shape; [discriminate | reflexivity | now vm_compute | exact H].
  - apply html_url_shape; [discriminate | reflexivity | now vm_compute | exact H].
  - apply css_url_shape; [discriminate | reflexivity | now vm_compute | exact H].
Qed.

(** C8 as stated fails for the CSS pattern, whose character class stops
    at a closing parenthesis and not at [>]. *)
Lemma css_url_may_contain_gt :
  Re.findall css_asset_pattern "url(http://a/b>c.png)" = ["http://a/b>c.png"] /\
  url_shape (image_extensions ++ font_extensions)%list html_stop
    "http://a/b>c.png" = false /\
  Str.mem ">" "http://a/b>c.png" = true.
Proof. repeat split; reflexivity. Qed.

(** * The local file name *)

Lemma unsafe_match (c : ascii) (s : string) :
  Re.match_at unsafe_char_pattern (String c s)
  = if safe_char c then None else Some (String c "", s).
Proof.
  pose proof (all_chars
    (fun d => Bool.eqb
       (Re.cls_ok false true
          [Re.Range "A" "Z"; Re.Range "a" "z"; Re.Range "0" "9";
           Re.Lit "."; Re.Lit "_"; Re.Lit "-"] d)
       (negb (safe_char d))) eq_refl c) as H.
  apply Bool.eqb_prop in H.
  unfold Re.match_at, unsafe_char_pattern.
  cbn [Re.run Re.icase Re.before Re.group Re.after]. unfold Re.one.
  rewrite H. now destruct (safe_char c).
Qed.

Lemma sub_unsafe (s : string) :
  Re.sub unsafe_char_pattern "" s = Str.filter safe_char s.
Proof.
  unfold Re.sub. induction s as [|c s IH]; [reflexivity|].
  cbn [Re.sub_from Str.filter]. rewrite unsafe_match.
  destruct (safe_char c).
  - now rewrite IH.
  - replace (String.length (String c s) - String.length s - 1) with 0
      by (cbn [String.length]; lia).
    exact IH.
Qed.

Lemma prefix_split (p s : string) :
  String.prefix p s = true -> exists t, s = p ++ t.
Proof.
  revert s; induction p as [|c p IH]; intros s H.
  - now exists s.
  - destruct s as [|d s]; [discriminate|]. simpl in H.
    destruct (ascii_dec c d) as [->|]; [|discriminate].
    destruct (IH s H) as [t ->]. now exists t.
Qed.

(** Replacing a text that does not occur changes nothing. *)
Lemma replace_not_found (o : ascii) (old new s : string) :
  (forall a b, s <> a ++ String o old ++ b) ->
  Str.replace (String o old) new s = s.
Proof.
  unfold Str.replace. induction s as [|c s IH]; intros H; [reflexivity|].
  cbn [Str.replace_from].
  destruct (String.prefix (String o old) (String c s)) eqn:Hp.
  - apply prefix_split in Hp as [t Ht]. now destruct (H "" t).
  - rewrite IH; [reflexivity|].
    intros a b E. apply (H (String c a) b). simpl. now rewrite E.
Qed.

Lemma rcut_none (sep : ascii) (s : string) :
  Str.mem sep s = false -> Str.rcut sep s = None.
Proof.
  induction s as [|c s IH]; [reflexivity|]. simpl. intros H.
  apply orb_false_iff in H as [H1 H2]. rewrite (IH H2).
  destruct (Ascii.eqb_spec c sep) as [->|]; [|reflexivity].
  now rewrite Ascii.eqb_refl in H1.
Qed.

(** [os.path.basename] is what follows the last slash. *)
Lemma basename_last (dir name : string) :
  Str.mem "/" name = false -> OsPath.basename (dir ++ "/" ++ name) = name.
Proof.
  intros H. unfold OsPath.basename.
  assert (E : Str.rcut "/" (dir ++ "/" ++ name) = Some (dir, name)).
  { induction dir as [|c dir IH]; simpl.
    - now rewrite (rcut_none "/" name H).
    - simpl in IH. now rewrite IH. }
  now rewrite E.
Qed.

(** C5, as the code has it.  The name under which [download_file]
    stores a url is the base name (what follows the last slash) of the
    path of the url from which every [%20] has been removed, with every
    [%20] that this base name still holds removed and every character
    outside [[A-Za-z0-9._-]] dropped, not escaped or replaced: what is
    left are characters of that set, in their order and case.  For a url
    that holds no [%20] this is the name that the same words give for
    the path of the url as it is.  In particular
    https://example.com/a%20b.PNG gives ab.PNG, the base name
    img@2x!.png gives img2x.png, and in a url with directories,
    parameters, a query and a fragment the name comes from the last
    segment of the path alone. *)
Theorem local_name_sanitized (w : world) (url : string) :
  local_name w url
  = option_map sanitized_basename
      (Url.path (ip_literal_ok w) (Str.replace "%20" "" url)) /\
  (match local_name w url with
   | Some name => Str.forallb safe_char name = true
   | None => True
   end) /\
  ((forall a b, url <> a ++ "%20" ++ b) ->
   local_name w url = name_of_given_url w url) /\
  (forall dir name,
     Str.mem "/" name = false -> OsPath.basename (dir ++ "/" ++ name) = name) /\
  local_name w "https://example.com/a%20b.PNG" = Some "ab.PNG" /\
  sanitized_basename "img@2x!.png" = "img2x.png" /\
  local_name w "https://example.com/img@2x!.png" = Some "img2x.png" /\
  local_name w "https://example.com/img/v2;p/a%20b.PNG;x=1?q=/z.gif#f/g.png"
  = Some "ab.PNG".
Proof.
  assert (E : local_name w url
              = option_map sanitized_basename
                  (Url.path (ip_literal_ok w) (Str.replace "%20" "" url))).
  { unfold local_name, sanitized_basename.
    destruct (Url.path _ _); simpl; [now rewrite sub_unsafe | reflexivity]. }
  split; [exact E|]. split.
  { rewrite E. destruct (Url.path _ _); simpl; [|exact I].
    apply forallb_filter. }
  split.
  { intros H. rewrite E. unfold name_of_given_url.
    now rewrite (replace_not_found "%" "20" "" url H). }
  split; [exact basename_last|].
  repeat split; reflexivity.
Qed.

(** C5 as stated fails: the code removes [%20] from the url before it
    takes the path, and the removal can join what was apart.  In
    a%2%200b.png it leaves a%20b.png, which the second removal turns
    into ab.png, where the base name of the path of the url as given
    leads to a20b.png; in http:/%20/a.png it leaves http://a.png, whose
    path is empty. *)
Lemma name_of_given_url_differs :
  local_name obliging_world "https://example.com/a%2%200b.png" = Some "ab.png" /\
  name_of_given_url obliging_world "https://example.com/a%2%200b.png"
  = Some "a20b.png" /\
  local_name obliging_world "http:/%20/a.png" = Some "" /\
  name_of_given_url obliging_world "http:/%20/a.png" = Some "a.png".
Proof. repeat split; reflexivity. Qed.

(** * Facts about the file tree *)

Lemma assoc_put_same (k : string) (v : Fs.node) (l : list (string * Fs.node)) :
  Fs.assoc k (Fs.put k v l) = Some v.
Proof.
  induction l as [|[k' v'] l IH]; simpl.
  - now rewrite String.eqb_refl.
  - destruct (String.eqb_spec k k') as [E|E]; simpl.
    + now rewrite String.eqb_refl.
    + destruct (String.eqb_spec k k'); [contradiction | exact IH].
Qed.

Lemma assoc_put_other (k k' : string) (v : Fs.node) (l : list (string * Fs.node)) :
  k' <> k -> Fs.assoc k' (Fs.put k v l) = Fs.assoc k' l.
Proof.
  intros Hne; induction l as [|[k0 v0] l IH]; simpl.
  - destruct (String.eqb_spec k' k); [contradiction | reflexivity].
  - destruct (String.eqb_spec k k0) as [E|E]; simpl.
    + subst k0. destruct (String.eqb_spec k' k); [contradiction | reflexivity].
    + destruct (String.eqb_spec k' k0); [reflexivity | exact IH].
Qed.

(** How [Fs.write] proceeds, one component at a time. *)
Lemma write_inv (p : OsPath.path) (data : string) (n n' : Fs.node) :
  Fs.write p data n = Some n' ->
  exists es c p',
    n = Fs.Dir es /\ p = c :: p' /\
    ((p' = [] /\ n' = Fs.Dir (Fs.put c (Fs.File data) es) /\
      forall es', Fs.assoc c es <> Some (Fs.Dir es')) \/
     (p' <> [] /\ exists m m',
        Fs.assoc c es = Some m /\ Fs.write p' data m = Some m' /\
        n' = Fs.Dir (Fs.put c m' es))).
Proof.
  destruct n as [d|es]; destruct p as [|c p']; simpl; try discriminate.
  intros H. exists es, c, p'. split; [reflexivity|]. split; [reflexivity|].
  destruct p' as [|c2 p''].
  - left. split; [reflexivity|].
    destruct (Fs.assoc c es) as [[d|es0]|] eqn:E; try discriminate;
      destruct (Fs.name_ok c); try discriminate; inv H;
      (split; [reflexivity | intros es'; congruence]).
  - right. split; [discriminate|].
    destruct (Fs.assoc c es) as [m|] eqn:E; [|discriminate].
    destruct (Fs.write (c2 :: p'') data m) as [m'|] eqn:E'; [|discriminate].
    inv H. now exists m, m'.
Qed.

Lemma lookup_file_nil (q : OsPath.path) (d d' : string) :
  Fs.lookup q (Fs.File d) = Some (Fs.File d') -> q = [].
Proof. destruct q; [reflexivity | discriminate]. Qed.

Lemma write_lookup_same (p : OsPath.path) (data : string) :
  forall n n', Fs.write p data n = Some n' ->
  Fs.lookup p n' = Some (Fs.File data).
Proof.
  induction p as [|c p IH]; intros n n' H;
    apply write_inv in H as (es & c0 & p' & -> & E & H); inv E.
  destruct H as [(-> & -> & _) | (Hne & m & m' & Ha & Hw & ->)]; simpl.
  - now rewrite assoc_put_same.
  - rewrite assoc_put_same. now apply IH with (n := m).
Qed.

(** Writing one file leaves every other file as it is. *)
Lemma write_lookup_other (p : OsPath.path) (data : string) :
  forall n n' q d, Fs.write p data n = Some n' -> q <> p ->
  Fs.lookup q n = Some (Fs.File d) -> Fs.lookup q n' = Some (Fs.File d).
Proof.
  induction p as [|c p IH]; intros n n' q d H Hq Hl;
    apply write_inv in H as (es & c0 & p' & -> & E & H); inv E.
  destruct q as [|c' q']; [discriminate|]. simpl in Hl |- *.
  destruct (string_dec c' c0) as [->|Hc].
  - destruct H as [(-> & -> & Hnd) | (Hne & m & m' & Ha & Hw & ->)];
      rewrite assoc_put_same.
    + destruct (Fs.assoc c0 es) as [[d0|es0]|] eqn:E; try discriminate.
      * apply lookup_file_nil in Hl. congruence.
      * now destruct (Hnd es0).
    + rewrite Ha in Hl. apply IH with (n := m); [assumption | congruence | assumption].
  - destruct H as [(-> & -> & Hnd) | (Hne & m & m' & Ha & Hw & ->)];
      now rewrite assoc_put_other.
Qed.

(** A new file can be created in an existing directory, under a name
    that the file system takes. *)
Lemma write_new (folder : OsPath.path) (name data : string) :
  Fs.name_ok name = true ->
  forall n, Fs.is_dir folder n = true ->
  Fs.lookup (folder ++ [name])%list n = None ->
  exists n', Fs.write (folder ++ [name])%list data n = Some n'.
Proof.
  unfold Fs.is_dir. intros Hok.
  induction folder as [|c folder IH]; intros n Hd Hl.
  - simpl in Hd. destruct n as [d|es]; [discriminate|].
    simpl in Hl |- *. destruct (Fs.assoc name es) as [m|]; [discriminate|].
    rewrite Hok. eauto.
  - simpl in Hd. destruct n as [d|es]; [discriminate|].
    simpl in Hl. destruct (Fs.assoc c es) as [m|] eqn:E; [|discriminate].
    destruct (IH m Hd Hl) as [m' Hm'].
    exists (Fs.Dir (Fs.put c m' es)).
    change ((c :: folder) ++ [name])%list with (c :: (folder ++ [name]))%list.
    destruct (folder ++ [name])%list as [|c2 p''] eqn:Ep.
    + now destruct folder.
    + simpl. rewrite E. simpl in Hm'. now rewrite Hm'.
Qed.

(** A file is stored only under a name that the file system takes. *)
Lemma write_name_ok (folder : OsPath.path) (name data : string) :
  forall n n', Fs.write (folder ++ [name])%list data n = Some n' ->
  Fs.name_ok name = true.
Proof.
  induction folder as [|c folder IH]; intros n n' H.
  - destruct n as [d|es]; [discriminate|]. simpl in H.
    destruct (Fs.name_ok name); [reflexivity|].
    now destruct (Fs.assoc name es) as [[d|es0]|].
  - apply write_inv in H as (es & c0 & p' & -> & E & H).
    change ((c :: folder) ++ [name])%list with (c :: (folder ++ [name]))%list in E.
    inv E. destruct H as [(Hnil & _) | (_ & m & m' & _ & Hw & _)].
    + now destruct folder.
    + now apply IH with m m'.
Qed.

(** * [download_file] *)

Ltac step_m :=
  unfold bind, ret, raise, print, path_exists, requests_get, write_file,
    read_file; cbn beta iota.

Lemma not_special_exists (folder : OsPath.path) (name : string) (n : Fs.node) :
  Fs.is_dir folder n = true -> Fs.exists_in folder name n = false ->
  OsPath.special name = false /\ Fs.lookup (folder ++ [name])%list n = None.
Proof.
  unfold Fs.exists_in. intros Hd He.
  destruct (OsPath.special name); [congruence|].
  split; [reflexivity|].
  now destruct (Fs.lookup (folder ++ [name])%list n).
Qed.

Lemma download_hit (w : world) (url : string) (folder : OsPath.path)
    (name : string) (st : state) :
  local_name w url = Some name ->
  Fs.exists_in folder name (fs st) = true ->
  download_file w url folder st
  = (Ret (Some (OsPath.relpath folder name)), add_out (AlreadyExists name) st).
Proof.
  intros Hn He. unfold download_file. rewrite Hn. step_m. now rewrite He.
Qed.

Lemma download_fetch (w : world) (url : string) (folder : OsPath.path)
    (name : string) (st : state) (chunks : list string) :
  local_name w url = Some name ->
  Fs.is_dir folder (fs st) = true ->
  Fs.name_ok name = true ->
  Fs.exists_in folder name (fs st) = false ->
  server w (requests st) url = Reply 200 chunks true ->
  exists n',
    Fs.write (folder ++ [name])%list (String.concat "" chunks) (fs st) = Some n' /\
    download_file w url folder st
    = (Ret (Some (OsPath.relpath folder name)),
       add_out (Downloaded name) (with_fs n' (add_request url st))).
Proof.
  intros Hn Hd Hok He Hs.
  destruct (not_special_exists _ _ _ Hd He) as [Hsp Hl].
  destruct (write_new folder name (String.concat "" chunks) Hok (fs st) Hd Hl)
    as [n' Hw].
  exists n'. split; [assumption|].
  unfold download_file. rewrite Hn. step_m. rewrite He, Hs. simpl.
  now rewrite Hw.
Qed.

(** C6.  When a file with the sanitized name is already in the target
    folder, [download_file] returns its path relative to the project
    root and the only effect is the line printed: no request is made.
    Consequently, of two urls with the same sanitized name resolved to
    the same folder, the first is fetched and stored when its download
    succeeds (it is answered with status 200 and a whole body, and the
    destination can be opened: the folder exists and the name is not
    longer than 255 bytes), and the second returns the same path without
    a request: the log of requests grows by the first url alone. *)
Theorem download_short_circuit (w : world) (url : string)
    (folder : OsPath.path) (name : string) (st : state) :
  local_name w url = Some name ->
  (Fs.exists_in folder name (fs st) = true ->
   download_file w url folder st
   = (Ret (Some (OsPath.relpath folder name)),
      add_out (AlreadyExists name) st)) /\
  (forall (url2 : string) (chunks : list string),
   local_name w url2 = Some name ->
   Fs.is_dir folder (fs st) = true ->
   Fs.name_ok name = true ->
   Fs.exists_in folder name (fs st) = false ->
   server w (requests st) url = Reply 200 chunks true ->
   exists st1 st2,
     download_file w url folder st
     = (Ret (Some (OsPath.relpath folder name)), st1) /\
     download_file w url2 folder st1
     = (Ret (Some (OsPath.relpath folder name)), st2) /\
     requests st2 = (requests st ++ [url])%list /\
     fs st2 = fs st1 /\
     Fs.lookup (folder ++ [name])%list (fs st1)
     = Some (Fs.File (String.concat "" chunks))).
Proof.
  intros Hn. split; [now apply download_hit|].
  intros url2 chunks Hn2 Hd Hok He Hs.
  destruct (download_fetch w url folder name st chunks Hn Hd Hok He Hs)
    as (n' & Hw & E1).
  destruct (not_special_exists _ _ _ Hd He) as [Hsp _].
  pose proof (write_lookup_same _ _ _ _ Hw) as Hl.
  set (st1 := add_out (Downloaded name) (with_fs n' (add_request url st))) in *.
  exists st1, (add_out (AlreadyExists name) st1).
  split; [exact E1|]. split; [|split; [reflexivity|split; [reflexivity|exact Hl]]].
  apply download_hit; [assumption|].
  unfold Fs.exists_in. rewrite Hsp. simpl. now rewrite Hl.
Qed.

Lemma download_short_circuit_witness :
  download_file obliging_world "https://cdn.test/pic.jpg?v=1" assets_folder
    (empty_state stocked_tree)
  = (Ret (Some "assets/pic.jpg"),
     add_out (AlreadyExists "pic.jpg") (empty_state stocked_tree)) /\
  let st := empty_state bare_tree in
  exists st1 st2,
    download_file obliging_world "https://cdn.test/pic.jpg?v=1" assets_folder st
    = (Ret (Some "assets/pic.jpg"), st1) /\
    download_file obliging_world "https://cdn.test/pic.jpg?v=2" assets_folder st1
    = (Ret (Some "assets/pic.jpg"), st2) /\
    requests st2 = ["https://cdn.test/pic.jpg?v=1"] /\
    fs st2 = fs st1 /\
    Fs.lookup ["assets"; "pic.jpg"] (fs st1) = Some (Fs.File "PNGdata").
Proof.
  split.
  - exact (proj1 (download_short_circuit obliging_world
                    "https://cdn.test/pic.jpg?v=1" assets_folder "pic.jpg"
                    (empty_state stocked_tree) eq_refl) eq_refl).
  - exact (proj2 (download_short_circuit obliging_world
                    "https://cdn.test/pic.jpg?v=1" assets_folder "pic.jpg"
                    (empty_state bare_tree) eq_refl)
                 "https://cdn.test/pic.jpg?v=2" ["PNG"; "data"]
                 eq_refl eq_refl eq_refl eq_refl eq_refl).
Defined.

Lemma download_failed_status (w : world) (url : string) (folder : OsPath.path)
    (name : string) (st : state) (status : nat) (chunks : list string)
    (complete : bool) :
  local_name w url = Some name ->
  Fs.exists_in folder name (fs st) = false ->
  server w (requests st) url = Reply status chunks complete ->
  status <> 200 ->
  download_file w url folder st
  = (Ret None, add_out (FailedStatus status url) (add_request url st)).
Proof.
  intros Hn He Hs Hne. unfold download_file. rewrite Hn. step_m.
  rewrite He, Hs. simpl.
  destruct (Nat.eqb_spec status 200); [contradiction | reflexivity].
Qed.

Lemma download_refused (w : world) (url : string) (folder : OsPath.path)
    (name : string) (st : state) :
  local_name w url = Some name ->
  Fs.exists_in folder name (fs st) = false ->
  server w (requests st) url = Refused ->
  download_file w url folder st
  = (Ret None, add_out (RequestFailed url) (add_request url st)).
Proof.
  intros Hn He Hs. unfold download_file. rewrite Hn. step_m.
  now rewrite He, Hs.
Qed.

(** X13.  When the response to a download has a status other than 200,
    [download_file] prints the failure and returns None; the request is
    logged and the file tree is as before, so no local file is created.
    The turn of the loop of [replace_references] (and of the srcset
    pass) for that url leaves the content and the modified flag as they
    were: the failure itself rewrites nothing, and the loop goes on with
    the remaining references from there. *)
Theorem failed_status_is_skipped (w : world) (url : string)
    (folder : OsPath.path) (name : string) (st : state) (status : nat)
    (chunks : list string) (complete : bool) :
  local_name w url = Some name ->
  Fs.exists_in folder name (fs st) = false ->
  server w (requests st) url = Reply status chunks complete ->
  status <> 200 ->
  folder_for w url = Some folder ->
  let st' := add_out (FailedStatus status url) (add_request url st) in
  download_file w url folder st = (Ret None, st') /\
  fs st' = fs st /\
  (forall acc, reference w acc url st = (Ret acc, st')) /\
  (forall acc rest,
     foldM (reference w) (url :: rest) acc st
     = foldM (reference w) rest acc st') /\
  (forall content part rest,
     srcset_candidate part = url -> Str.startswith "http" url = true ->
     foldM (srcset_part w) (part :: rest) content st
     = foldM (srcset_part w) rest content st').
Proof.
  intros Hn He Hs Hne Hf st'.
  pose proof (download_failed_status w url folder name st status chunks
                complete Hn He Hs Hne) as Hd.
  assert (Hr : forall acc, reference w acc url st = (Ret acc, st')).
  { intros acc. unfold reference. rewrite Hf. unfold bind. now rewrite Hd. }
  split; [exact Hd|]. split; [reflexivity|]. split; [exact Hr|]. split.
  - intros acc rest. simpl. unfold bind at 1. now rewrite Hr.
  - intros content part rest Hc Hh. simpl. unfold bind at 1.
    unfold srcset_part. rewrite Hc, Hh, Hf. unfold bind at 1. now rewrite Hd.
Qed.

Lemma failed_status_is_skipped_witness :
  let st := empty_state bare_tree in
  let st' := add_out (FailedStatus 404 "https://cdn.test/gone.png")
               (add_request "https://cdn.test/gone.png" st) in
  download_file missing_world "https://cdn.test/gone.png" assets_folder st
  = (Ret None, st') /\
  fs st' = fs st /\
  (forall acc,
     reference missing_world acc "https://cdn.test/gone.png" st = (Ret acc, st')) /\
  (forall acc rest,
     foldM (reference missing_world) ("https://cdn.test/gone.png" :: rest) acc st
     = foldM (reference missing_world) rest acc st') /\
  (forall content part rest,
     srcset_candidate part = "https://cdn.test/gone.png" ->
     Str.startswith "http" "https://cdn.test/gone.png" = true ->
     foldM (srcset_part missing_world) (part :: rest) content st
     = foldM (srcset_part missing_world) rest content st').
Proof.
  apply (failed_status_is_skipped missing_world "https://cdn.test/gone.png"
           assets_folder "gone.png" (empty_state bare_tree) 404
           ["Not Found"] true eq_refl eq_refl eq_refl).
  - discriminate.
  - reflexivity.
Defined.

(** C4 fails on the code.  In a srcset attribute of two entries, the
    download of a.png fails with status 404 and creates no file, and
    b.png is stored and substituted.  The image pattern, whose character
    class goes over spaces and commas, then matches from the url of
    a.png to the end of assets/b.png, a text whose base name b.png is on
    disk: its substitution takes the url of a.png out of the page, which
    is written back without it. *)
Theorem failed_url_rewritten_with_neighbour :
  let st := empty_state srcset_pair_tree in
  let st' := snd (replace_references partial_world ["index.html"]
                    html_img_pattern st) in
  out st' = [FailedStatus 404 "http://cdn.test/a.png"; Downloaded "b.png";
             AlreadyExists "b.png"; Updated ["index.html"]] /\
  Fs.lookup ["assets"; "a.png"] (fs st') = None /\
  Re.findall html_img_pattern
    ("<img srcset=" ++ quoted "http://cdn.test/a.png 1x, assets/b.png 2x" ++ ">")
  = ["http://cdn.test/a.png 1x, assets/b.png"] /\
  Fs.lookup ["index.html"] (fs st')
  = Some (Fs.File ("<img srcset=" ++ quoted "/assets/b.png 2x" ++ ">")).
Proof.
  split; [vm_compute; reflexivity|]. split; [vm_compute; reflexivity|].
  split; vm_compute; reflexivity.
Qed.

(** A name of 255 bytes is stored; with one byte more the destination
    cannot be opened, and the OSError, which nothing catches, ends the
    run after the request. *)
Example long_name_is_refused :
  let st := empty_state bare_tree in
  Fs.byte_length long_name = 256 /\
  Fs.byte_length longest_name = 255 /\
  download_file obliging_world ("https://cdn.test/" ++ long_name)
    assets_folder st
  = (Raise OSError, add_request ("https://cdn.test/" ++ long_name) st) /\
  fst (download_file obliging_world ("https://cdn.test/" ++ longest_name)
         assets_folder st)
  = Ret (Some ("assets/" ++ longest_name)).
Proof. repeat split; vm_compute; reflexivity. Qed.

(** C3 fails on the code.  With a response of status 200 whose body
    breaks after the first chunk, [download_file] returns None and the
    destination holds the part received; the next call for the same url
    takes that file for the asset. *)
Theorem partial_file_after_failure :
  let url := "https://cdn.test/pic.jpg" in
  exists st',
    download_file flaky_world url assets_folder (empty_state bare_tree)
    = (Ret None, st') /\
    Fs.lookup ["assets"; "pic.jpg"] (fs st') = Some (Fs.File "PNG") /\
    out st' = [RequestFailed url] /\
    download_file flaky_world url assets_folder st'
    = (Ret (Some "assets/pic.jpg"), add_out (AlreadyExists "pic.jpg") st').
Proof.
  intros url. eexists.
  split; [vm_compute; reflexivity|].
  split; [reflexivity|]. split; reflexivity.
Qed.

(** * The text written for a reference *)

Lemma folder_for_cases (w : world) (url : string) (folder : OsPath.path) :
  folder_for w url = Some folder ->
  folder = assets_folder \/ folder = fonts_folder.
Proof.
  unfold folder_for. destruct (Url.path _ _); [|discriminate].
  destruct (Str.inb _ _); intros H; inv H; auto.
Qed.

Lemma download_result (w : world) (url : string) (folder : OsPath.path)
    (rel : string) (st st' : state) :
  download_file w url folder st = (Ret (Some rel), st') ->
  exists name, local_name w url = Some name /\ rel = OsPath.relpath folder name.
Proof.
  unfold download_file. destruct (local_name w url) as [name|]; [|discriminate].
  step_m. intros H. exists name. split; [reflexivity|].
  destruct (Fs.exists_in folder name (fs st)); [now inv H|].
  destruct (server w (requests st) url) as [|status chunks complete];
    [discriminate|].
  destruct (Nat.eqb status 200); [|discriminate].
  simpl in H. destruct (Fs.write _ _ _); [|discriminate].
  destruct complete; [now inv H | discriminate].
Qed.

(** In the two folders of the program a relative path is never empty
    and has no backslash to normalize unless the name has one. *)
Lemma relpath_truthy (folder : OsPath.path) (name : string) :
  folder = assets_folder \/ folder = fonts_folder ->
  truthy (Some (OsPath.relpath folder name)) = true.
Proof.
  intros [->| ->]; unfold OsPath.relpath, OsPath.rel_components;
    destruct (String.eqb name "" || String.eqb name "."); try reflexivity;
    destruct (String.eqb name ".."); reflexivity.
Qed.

Lemma reference_hit (w : world) (url : string) (folder : OsPath.path)
    (rel : string) (st st' : state) (acc : string * bool) :
  folder_for w url = Some folder ->
  download_file w url folder st = (Ret (Some rel), st') ->
  reference w acc url st
  = (Ret (Str.replace url ("/" ++ normalize_separators (Some rel)) (fst acc),
          true), st').
Proof.
  intros Hf Hd. unfold reference. rewrite Hf. unfold bind. rewrite Hd.
  destruct (download_result _ _ _ _ _ _ Hd) as (name & _ & ->).
  now rewrite (relpath_truthy folder name (folder_for_cases _ _ _ Hf)).
Qed.





(** * A url whose name is empty *)

Lemma makedirs_is_dir (p : OsPath.path) :
  forall n n', Fs.makedirs p n = Some n' -> Fs.is_dir p n' = true.
Proof.
  unfold Fs.is_dir.
  induction p as [|c p IH]; intros n n' H; destruct n as [d|es];
    simpl in H; try discriminate.
  - now inv H.
  - destruct (Fs.makedirs p _) as [m'|] eqn:E; [|discriminate]. inv H.
    simpl. rewrite assoc_put_same. now apply IH in E.
Qed.

(** Lines 12-13 leave the two folders in place. *)
Lemma startup_folders (st st' : state) :
  startup st = (Ret tt, st') ->
  Fs.is_dir assets_folder (fs st') = true /\
  Fs.is_dir fonts_folder (fs st') = true.
Proof.
  unfold startup, makedirs, bind. intros H.
  destruct (Fs.makedirs assets_folder (fs st)) as [n1|] eqn:E1; [|discriminate].
  cbn [fs with_fs] in H.
  destruct (Fs.makedirs fonts_folder n1) as [n2|] eqn:E2; [|discriminate].
  inv H. cbn [fs with_fs].
  pose proof (makedirs_is_dir _ _ _ E2) as H2. split; [|exact H2].
  unfold Fs.is_dir, fonts_folder, assets_folder in *. cbn [Fs.lookup] in *.
  destruct n2 as [d|es]; [discriminate|].
  destruct (Fs.assoc "assets" es) as [[d|es']|]; try discriminate.
  reflexivity.
Qed.

(** C10.  For a url whose sanitized name is empty, the local path is the
    target folder itself; the folder exists (the two folders of the
    program are created at startup), so [download_file] returns the
    relative path of the folder, the only effect being the line printed:
    no request is made and the tree is unchanged.  [replace_references]
    then writes a slash and the path of that directory in place of the
    url. *)
Theorem empty_name_names_folder (w : world) (url : string)
    (folder : OsPath.path) (st : state) :
  Fs.is_dir assets_folder (fs st) = true ->
  Fs.is_dir fonts_folder (fs st) = true ->
  local_name w url = Some "" ->
  folder_for w url = Some folder ->
  let st' := add_out (AlreadyExists "") st in
  OsPath.rel_components folder "" = folder /\
  Fs.is_dir folder (fs st) = true /\
  download_file w url folder st = (Ret (Some (Str.join "/" folder)), st') /\
  requests st' = requests st /\
  fs st' = fs st /\
  (forall content modified,
     reference w (content, modified) url st
     = (Ret (Str.replace url ("/" ++ Str.join "/" folder) content, true), st')).
Proof.
  intros Ha Hfo Hn Hf st'.
  assert (Hd : Fs.is_dir folder (fs st) = true).
  { destruct (folder_for_cases _ _ _ Hf) as [->| ->]; assumption. }
  assert (E : download_file w url folder st
              = (Ret (Some (Str.join "/" folder)), st')).
  { rewrite (download_hit w url folder "" st Hn); [|exact Hd].
    destruct (folder_for_cases _ _ _ Hf) as [->| ->]; reflexivity. }
  repeat (split; [first [reflexivity | assumption]|]).
  intros content modified.
  rewrite (reference_hit w url folder _ st st' (content, modified) Hf E).
  destruct (folder_for_cases _ _ _ Hf) as [->| ->]; reflexivity.
Qed.

Lemma empty_name_names_folder_witness :
  let url := "http://cdn.test/?a.png" in
  let st := snd (startup (empty_state (Fs.Dir []))) in
  let st' := add_out (AlreadyExists "") st in
  OsPath.rel_components assets_folder "" = assets_folder /\
  Fs.is_dir assets_folder (fs st) = true /\
  download_file obliging_world url assets_folder st = (Ret (Some "assets"), st') /\
  requests st' = requests st /\
  fs st' = fs st /\
  (forall content modified,
     reference obliging_world (content, modified) url st
     = (Ret (Str.replace url "/assets" content, true), st')).
Proof.
  exact (empty_name_names_folder obliging_world "http://cdn.test/?a.png"
           assets_folder (snd (startup (empty_state (Fs.Dir []))))
           eq_refl eq_refl eq_refl eq_refl).
Defined.

(** * What a run may touch *)

Section Keeps.

Variable R : state -> state -> Prop.
Hypothesis R_refl : forall st, R st st.
Hypothesis R_trans : forall a b c, R a b -> R b c -> R a c.

Lemma keeps_ret {A : Type} (a : A) : keeps R (ret a).
Proof. intros st. apply R_refl. Qed.

Lemma keeps_raise {A : Type} (e : exn) : keeps R (@raise A e).
Proof. intros st. apply R_refl. Qed.

Lemma keeps_bind {A B : Type} (c : M A) (f : A -> M B) :
  keeps R c -> (forall a, keeps R (f a)) -> keeps R (bind c f).
Proof.
  intros Hc Hf st. unfold bind. specialize (Hc st).
  destruct (c st) as [[a|e] st1]; simpl in *; [|assumption].
  eapply R_trans; [exact Hc | apply Hf].
Qed.

Lemma keeps_foldM {A B : Type} (f : B -> A -> M B) (l : list A) :
  (forall b a, keeps R (f b a)) -> forall b, keeps R (foldM f l b).
Proof.
  intros Hf. induction l as [|a l IH]; intros b; simpl.
  - apply keeps_ret.
  - apply keeps_bind; [apply Hf | exact IH].
Qed.

Lemma keeps_for_each {A : Type} (l : list A) (f : A -> M unit) :
  (forall a, keeps R (f a)) -> keeps R (for_each l f).
Proof.
  intros Hf. induction l as [|a l IH]; simpl.
  - apply keeps_ret.
  - apply keeps_bind; [apply Hf | intros _; exact IH].
Qed.

End Keeps.

Lemma frame_refl (allowed : OsPath.path -> bool) (st : state) :
  frame allowed st st.
Proof. repeat split; auto. Qed.

Lemma frame_trans (allowed : OsPath.path -> bool) (a b c : state) :
  frame allowed a b -> frame allowed b c -> frame allowed a c.
Proof.
  intros (F1 & R1 & U1) (F2 & R2 & U2). repeat split.
  - intros q d Hq Hn. apply F2; [apply F1|]; assumption.
  - intros q Hq. destruct (R2 q Hq) as [H|H]; [apply R1, H | now right].
  - intros q Hq. destruct (U2 q Hq) as [H|H]; [apply U1, H | now right].
Qed.

Lemma frame_weaken (a b : OsPath.path -> bool) (st st' : state) :
  (forall q, a q = true -> b q = true) -> frame a st st' -> frame b st st'.
Proof.
  intros Hab (F & Rd & U). repeat split.
  - intros q d Hq Hn. apply F; [assumption|].
    destruct (a q) eqn:E; [|reflexivity]. rewrite (Hab q E) in Hn. discriminate.
  - intros q Hq. destruct (Rd q Hq); auto.
  - intros q Hq. destruct (U q Hq); auto.
Qed.

Lemma keeps_weaken {A : Type} (a b : OsPath.path -> bool) (c : M A) :
  (forall q, a q = true -> b q = true) ->
  keeps (frame a) c -> keeps (frame b) c.
Proof. intros Hab H st. eapply frame_weaken; [exact Hab | apply H]. Qed.

Lemma lookup_parent (folder : OsPath.path) (name : string) :
  forall n x, Fs.lookup (folder ++ [name])%list n = Some x ->
  Fs.is_dir folder n = true.
Proof.
  unfold Fs.is_dir. induction folder as [|c folder IH]; intros n x H.
  - simpl in *. destruct n; [discriminate | reflexivity].
  - simpl in *. destruct n as [d|es]; [discriminate|].
    destruct (Fs.assoc c es); [|discriminate]. now apply IH with (x := x).
Qed.

Lemma in_app_one {A : Type} (x y : A) (l : list A) :
  In x (l ++ [y])%list -> In x l \/ x = y.
Proof.
  intros H. apply in_app_or in H as [H|[H|[]]]; auto.
Qed.

Lemma frame_add_out (allowed : OsPath.path -> bool) (m : message) (st : state) :
  (forall p, m = Updated p -> allowed p = true) ->
  frame allowed st (add_out m st).
Proof.
  intros Hm. repeat split; simpl; auto.
  intros q Hq. apply in_app_one in Hq as [H|H]; [now left | right].
  now apply Hm.
Qed.

Lemma frame_add_request (allowed : OsPath.path -> bool) (url : string)
    (st : state) :
  frame allowed st (add_request url st).
Proof. repeat split; simpl; auto. Qed.

(** [download_file] only ever creates a file that was not there. *)
Lemma download_file_frame (w : world) (url : string) (folder : OsPath.path) :
  keeps (frame nowhere) (download_file w url folder).
Proof.
  intros st. unfold download_file.
  destruct (local_name w url) as [name|]; [|apply frame_refl].
  step_m. destruct (Fs.exists_in folder name (fs st)) eqn:He.
  { simpl. now apply frame_add_out. }
  destruct (server w (requests st) url) as [|status chunks complete].
  { simpl. apply frame_trans with (b := add_request url st);
      [apply frame_add_request | now apply frame_add_out]. }
  destruct (Nat.eqb status 200).
  2:{ simpl. apply frame_trans with (b := add_request url st);
        [apply frame_add_request | now apply frame_add_out]. }
  cbn [fs add_request].
  destruct (Fs.write (folder ++ [name])%list (String.concat "" chunks) (fs st))
    as [n'|] eqn:Hw; [|apply frame_add_request].
  assert (F : frame nowhere st (with_fs n' (add_request url st))).
  { repeat split; simpl; auto. intros q d Hq _.
    apply write_lookup_other with (p := (folder ++ [name])%list)
                                  (data := String.concat "" chunks)
                                  (n := fs st); try assumption.
    intros ->. pose proof (lookup_parent _ _ _ _ Hq) as Hd.
    unfold Fs.exists_in in He. rewrite Hq, Hd in He.
    destruct (OsPath.special name); discriminate. }
  destruct complete; simpl;
    (eapply frame_trans; [exact F | now apply frame_add_out]).
Qed.

Lemma srcset_part_frame (w : world) (content part : string) :
  keeps (frame nowhere) (srcset_part w content part).
Proof.
  unfold srcset_part.
  destruct (Str.startswith "http" (srcset_candidate part));
    [|apply keeps_ret, frame_refl].
  destruct (folder_for w (srcset_candidate part)) as [folder|];
    [|apply keeps_raise, frame_refl].
  apply keeps_bind; [apply frame_trans | apply download_file_frame |].
  intros local_path. destruct (truthy local_path); apply keeps_ret, frame_refl.
Qed.

Lemma srcset_frame (w : world) (content : string) :
  keeps (frame nowhere) (replace_urls_in_srcset w content).
Proof.
  unfold replace_urls_in_srcset.
  apply keeps_foldM; [apply frame_refl | apply frame_trans |].
  intros b m. apply keeps_foldM; [apply frame_refl | apply frame_trans |].
  intros b' part. apply srcset_part_frame.
Qed.

Lemma reference_frame (w : world) (acc : string * bool) (url : string) :
  keeps (frame nowhere) (reference w acc url).
Proof.
  unfold reference.
  destruct (folder_for w url) as [folder|]; [|apply keeps_raise, frame_refl].
  apply keeps_bind; [apply frame_trans | apply download_file_frame |].
  intros local_path. destruct (truthy local_path); apply keeps_ret, frame_refl.
Qed.

Lemma path_eqb_refl (p : OsPath.path) : path_eqb p p = true.
Proof. unfold path_eqb. now destruct (list_eq_dec string_dec p p). Qed.

Lemma path_eqb_false (p q : OsPath.path) : path_eqb q p = false -> q <> p.
Proof. unfold path_eqb. now destruct (list_eq_dec string_dec q p). Qed.

(** [replace_references] reads and writes its own file only. *)
Lemma replace_references_frame (w : world) (file_path : OsPath.path)
    (pattern : Re.pattern) :
  keeps (frame (fun q => path_eqb q file_path))
        (replace_references w file_path pattern).
Proof.
  set (own := fun q => path_eqb q file_path).
  assert (Hown : own file_path = true) by apply path_eqb_refl.
  unfold replace_references.
  apply keeps_bind; [apply frame_trans | |].
  { intros st. unfold read_file.
    destruct (Fs.lookup file_path (fs st)) as [[d|es]|]; try apply frame_refl.
    repeat split; simpl; auto.
    intros q Hq. apply in_app_one in Hq as [H| ->]; auto. }
  intros content.
  apply keeps_bind; [apply frame_trans | |].
  { apply keeps_weaken with (a := nowhere); [discriminate | apply srcset_frame]. }
  intros content'.
  apply keeps_bind; [apply frame_trans | |].
  { apply keeps_weaken with (a := nowhere); [discriminate|].
    apply keeps_foldM; [apply frame_refl | apply frame_trans |].
    intros b url. apply reference_frame. }
  intros acc. destruct (snd acc); [|apply keeps_ret, frame_refl].
  apply keeps_bind; [apply frame_trans | |].
  - intros st. unfold write_file.
    destruct (Fs.write file_path (fst acc) (fs st)) as [n'|] eqn:Hw;
      [|apply frame_refl].
    repeat split; simpl; auto. intros q d Hq Hn.
    apply write_lookup_other with (p := file_path) (data := fst acc)
                                  (n := fs st); try assumption.
    now apply path_eqb_false.
  - intros _ st. apply frame_add_out. intros p E. now inv E.
Qed.

Lemma last_app_one (root : OsPath.path) (file : string) :
  last (root ++ [file])%list EmptyString = file.
Proof. apply last_last. Qed.

Lemma process_file_frame (w : world) (root : OsPath.path) (file : string) :
  keeps (frame doc_path) (process_file w root file).
Proof.
  assert (Hdoc : is_html file || is_css file = true ->
                 forall q, path_eqb q (root ++ [file])%list = true ->
                           doc_path q = true).
  { intros Hd q Hq. unfold path_eqb in Hq.
    destruct (list_eq_dec string_dec q (root ++ [file])%list); [|discriminate].
    subst q. unfold doc_path. now rewrite last_app_one. }
  assert (Hrr : is_html file || is_css file = true ->
                forall pattern,
                keeps (frame doc_path)
                      (replace_references w (root ++ [file])%list pattern)).
  { intros Hd pattern.
    eapply keeps_weaken; [apply (Hdoc Hd) | apply replace_references_frame]. }
  unfold process_file. destruct (is_html file) eqn:Hh.
  - repeat (apply keeps_bind; [apply frame_trans | now apply Hrr | intros _]).
    now apply Hrr.
  - destruct (is_css file) eqn:Hc; [now apply Hrr | apply keeps_ret, frame_refl].
Qed.

(** * A tree on which a run has nothing left to do *)

Lemma quiet_refl (st : state) : quiet st st.
Proof. repeat split; auto. Qed.

Lemma quiet_trans (a b c : state) : quiet a b -> quiet b c -> quiet a c.
Proof.
  intros (F1 & R1 & O1) (F2 & R2 & O2). repeat split; try congruence.
  intros m Hm. destruct (O2 m Hm) as [H|H]; [apply O1, H | now right].
Qed.

Section Calm.

Variable n : Fs.node.

Lemma calm_ret {A : Type} (a : A) : calm n (ret a) a.
Proof. intros st _. exists st. split; [reflexivity | apply quiet_refl]. Qed.

Lemma calm_bind {A B : Type} (c : M A) (f : A -> M B) (a : A) (b : B) :
  calm n c a -> calm n (f a) b -> calm n (bind c f) b.
Proof.
  intros Hc Hf st Hfs.
  destruct (Hc st Hfs) as (st1 & E1 & Q1).
  destruct (Hf st1) as (st2 & E2 & Q2).
  { destruct Q1 as (F & _). congruence. }
  exists st2. unfold bind. rewrite E1. split; [exact E2|].
  eapply quiet_trans; eassumption.
Qed.

Lemma calm_foldM {A B : Type} (f : B -> A -> M B) (g : B -> A -> B)
    (l : list A) :
  (forall b x, In x l -> calm n (f b x) (g b x)) ->
  forall b, calm n (foldM f l b) (fold_left g l b).
Proof.
  induction l as [|x l IH]; intros Hf b; simpl.
  - apply calm_ret.
  - apply calm_bind with (a := g b x).
    + apply Hf. now left.
    + apply IH. intros b' y Hy. apply Hf. now right.
Qed.

Lemma calm_for_each {A : Type} (l : list A) (f : A -> M unit) :
  (forall x, In x l -> calm n (f x) tt) -> calm n (for_each l f) tt.
Proof.
  induction l as [|x l IH]; intros Hf; simpl.
  - apply calm_ret.
  - apply calm_bind with (a := tt).
    + apply Hf. now left.
    + apply IH. intros y Hy. apply Hf. now right.
Qed.

Variable w : world.

Lemma calm_download (url : string) (folder : OsPath.path) (name : string) :
  local_name w url = Some name ->
  Fs.exists_in folder name n = true ->
  calm n (download_file w url folder) (Some (OsPath.relpath folder name)).
Proof.
  intros Hn He st Hfs. exists (add_out (AlreadyExists name) st). split.
  - apply download_hit; [assumption | now rewrite Hfs].
  - repeat split; simpl; auto.
    intros m Hm. apply in_app_one in Hm as [H| ->]; eauto.
Qed.

Lemma calm_srcset_part (content part : string) :
  negb (Str.startswith "http" (srcset_candidate part))
  || stored w n (srcset_candidate part) = true ->
  calm n (srcset_part w content part) (srcset_part_stored w content part).
Proof.
  unfold srcset_part, srcset_part_stored, stored.
  destruct (Str.startswith "http" (srcset_candidate part)); simpl;
    [|intros _; apply calm_ret].
  destruct (folder_for w (srcset_candidate part)) as [folder|] eqn:Hf;
    [|discriminate].
  destruct (local_name w (srcset_candidate part)) as [name|] eqn:Hn;
    [|discriminate].
  intros He.
  apply calm_bind with (a := Some (OsPath.relpath folder name));
    [now apply calm_download|].
  rewrite (relpath_truthy folder name (folder_for_cases _ _ _ Hf)).
  apply calm_ret.
Qed.

Lemma calm_srcset (content : string) :
  srcset_stored w n content = true ->
  calm n (replace_urls_in_srcset w content) (srcset_rewritten w content).
Proof.
  unfold srcset_stored, replace_urls_in_srcset, srcset_rewritten.
  intros H. rewrite forallb_forall in H.
  apply calm_foldM. intros b m Hm.
  specialize (H m Hm). rewrite forallb_forall in H.
  apply calm_foldM. intros b' part Hp. apply calm_srcset_part. now apply H.
Qed.

Lemma set_iter_nil : set_iter w [] = [].
Proof.
  unfold set_iter. rewrite app_nil_r.
  induction (set_pick w []) as [|x l IH]; [reflexivity | exact IH].
Qed.

Lemma calm_read (p : OsPath.path) (data : string) :
  Fs.lookup p n = Some (Fs.File data) ->
  calm n (read_file p) (Str.universal_newlines data).
Proof.
  intros Hl st Hfs. exists (add_read p st). unfold read_file.
  rewrite Hfs, Hl. split; [reflexivity | repeat split; auto].
Qed.

Lemma calm_replace_references (p : OsPath.path) (pattern : Re.pattern)
    (data : string) :
  Fs.lookup p n = Some (Fs.File data) ->
  let content := Str.universal_newlines data in
  srcset_stored w n content = true ->
  no_match pattern (srcset_rewritten w content) = true ->
  calm n (replace_references w p pattern) tt.
Proof.
  intros Hl content Hs Hm. unfold replace_references.
  apply calm_bind with (a := content); [apply calm_read; exact Hl|].
  apply calm_bind with (a := srcset_rewritten w content);
    [apply calm_srcset; exact Hs|].
  unfold no_match in Hm.
  destruct (Re.findall pattern (srcset_rewritten w content)); [|discriminate].
  rewrite set_iter_nil. simpl.
  apply calm_bind with (a := (srcset_rewritten w content, false));
    [apply calm_ret|]. simpl. apply calm_ret.
Qed.

Lemma calm_process_file (root : OsPath.path) (file : string) :
  settled_file w n root file = true ->
  calm n (process_file w root file) tt.
Proof.
  unfold settled_file, settled_content, process_file, patterns_of.
  destruct (is_html file).
  - destruct (Fs.lookup (root ++ [file])%list n) as [[data|es]|] eqn:Hl;
      try discriminate.
    intros H. apply andb_true_iff in H as [Hs Hp]. simpl in Hp.
    apply andb_true_iff in Hp as [H1 Hp]. apply andb_true_iff in Hp as [H2 Hp].
    apply andb_true_iff in Hp as [H3 _].
    apply calm_bind with (a := tt);
      [now apply calm_replace_references with (data := data)|].
    apply calm_bind with (a := tt);
      [now apply calm_replace_references with (data := data)|].
    now apply calm_replace_references with (data := data).
  - destruct (is_css file); [|intros _; apply calm_ret].
    destruct (Fs.lookup (root ++ [file])%list n) as [[data|es]|] eqn:Hl;
      try discriminate.
    intros H. apply andb_true_iff in H as [Hs Hp]. simpl in Hp.
    apply andb_true_iff in Hp as [H1 _].
    now apply calm_replace_references with (data := data).
Qed.

Lemma calm_process_files :
  settled w n = true -> calm n (process_files w) tt.
Proof.
  unfold settled, process_files. intros H. rewrite forallb_forall in H.
  apply calm_bind with (a := Fs.dirs [] n).
  { intros st Hfs. exists st. unfold list_dirs. rewrite Hfs.
    split; [reflexivity | apply quiet_refl]. }
  apply calm_for_each. intros root Hr.
  specialize (H root Hr). rewrite forallb_forall in H.
  apply calm_bind with (a := Fs.files root n).
  { intros st Hfs. exists st. unfold list_files. rewrite Hfs.
    split; [reflexivity | apply quiet_refl]. }
  apply calm_for_each. intros file Hfile. apply calm_process_file. now apply H.
Qed.

End Calm.

(** C1, as the code has it.  On a tree in which every document is
    settled (each srcset entry that starts with http has its local file
    on disk and, once these entries are substituted, none of the
    document's patterns finds a url) a run of [process_files] completes
    without a request and without a write: the tree and the log of
    requests are as before, and the console receives nothing but lines
    Already exists. *)
Theorem settled_run_is_quiet (w : world) (st : state) :
  settled w (fs st) = true ->
  exists st',
    process_files w st = (Ret tt, st') /\
    fs st' = fs st /\
    requests st' = requests st /\
    (forall m, In m (out st') ->
               In m (out st) \/ exists name, m = AlreadyExists name).
Proof.
  intros H.
  destruct (calm_process_files (fs st) w H st eq_refl) as (st' & E & Q).
  exists st'. split; [exact E | exact Q].
Qed.

(** * Runs on concrete trees *)

Example first_run_of_site :
  snd (main obliging_world (empty_state site_tree))
  = {| fs :=
         Fs.Dir
           [("index.html",
             Fs.File ("<img srcset=" ++ quoted "assets/a.png 1x, assets/b.png 2x"
                      ++ "> <img src=" ++ quoted "/assets/pic.jpg" ++ ">"));
            ("style.css",
             Fs.File ".a{background:url('/assets/fonts/font.woff2')}");
            ("notes.txt", Fs.File "see http://cdn.test/pic.jpg");
            ("assets",
             Fs.Dir [("fonts", Fs.Dir [("font.woff2", Fs.File "PNGdata")]);
                     ("a.png", Fs.File "PNGdata");
                     ("b.png", Fs.File "PNGdata");
                     ("pic.jpg", Fs.File "PNGdata")])];
       requests := ["http://cdn.test/a.png"; "http://cdn.test/b.png";
                    "https://cdn.test/pic.jpg"; "https://cdn.test/font.woff2"];
       reads := [["index.html"]; ["index.html"]; ["index.html"]; ["style.css"]];
       out := [Downloaded "a.png"; Downloaded "b.png"; Downloaded "pic.jpg";
               Updated ["index.html"]; Downloaded "font.woff2";
               Updated ["style.css"]; AllDone] |}.
Proof. vm_compute. reflexivity. Qed.

Lemma settled_run_is_quiet_witness :
  let st := snd (main obliging_world (empty_state site_tree)) in
  exists st',
    process_files obliging_world st = (Ret tt, st') /\
    fs st' = fs st /\
    requests st' = requests st /\
    (forall m, In m (out st') ->
               In m (out st) \/ exists name, m = AlreadyExists name).
Proof.
  exact (settled_run_is_quiet obliging_world
           (snd (main obliging_world (empty_state site_tree))) eq_refl).
Defined.

(** C1 as stated fails.  The first run resolves the only reference it
    finds (one download, no failure); the substitution leaves a new
    match in the page, and the second run, without a request, rewrites
    the page. *)
Lemma second_run_rewrites :
  let st1 := snd (main obliging_world (empty_state nested_url_tree)) in
  let st2 := snd (process_files obliging_world st1) in
  out st1 = [Downloaded "x.png"; Updated ["index.html"]; AllDone] /\
  requests st1 = ["http://cdn.test/x.png"] /\
  Fs.lookup ["index.html"] (fs st1)
  = Some (Fs.File ("<img src=" ++ quoted "http://assets/x.png" ++ ">")) /\
  Fs.lookup ["index.html"] (fs st2)
  = Some (Fs.File ("<img src=" ++ quoted "/assets/x.png" ++ ">")) /\
  out st2 = (out st1 ++ [AlreadyExists "x.png"; Updated ["index.html"]])%list /\
  requests st2 = requests st1.
Proof.
  split; [vm_compute; reflexivity|]. split; [vm_compute; reflexivity|].
  split; [vm_compute; reflexivity|]. split; [vm_compute; reflexivity|].
  split; vm_compute; reflexivity.
Qed.

(** Another way to a second run that is not quiet: the first run stores
    a file that is itself a document, in a directory that the walk has
    left already; the second run finds it, fetches its image and
    rewrites it. *)
Example stored_document_is_processed_later :
  let st1 := snd (main page_world (empty_state late_page_tree)) in
  let st2 := snd (process_files page_world st1) in
  out st1 = [Downloaded "x.html"; Updated ["sub"; "index.html"]; AllDone] /\
  requests st1 = ["http://cdn.test/x.html?y.png"] /\
  settled page_world (fs st1) = false /\
  requests st2 = (requests st1 ++ ["http://cdn.test/inner.png"])%list /\
  Fs.lookup ["assets"; "x.html"] (fs st2)
  = Some (Fs.File ("<img src=" ++ quoted "/assets/inner.png" ++ ">")).
Proof. repeat split; vm_compute; reflexivity. Qed.

(** Whatever the srcset pass has substituted, the file is not written
    when the pattern finds nothing in the content that the pass returns:
    the run is then the srcset pass and its downloads, and no more. *)
Lemma srcset_pass_not_persisted (w : world) (file_path : OsPath.path)
    (pattern : Re.pattern) (st st1 : state) (data content' : string) :
  Fs.lookup file_path (fs st) = Some (Fs.File data) ->
  replace_urls_in_srcset w (Str.universal_newlines data)
    (add_read file_path st) = (Ret content', st1) ->
  Re.findall pattern content' = [] ->
  replace_references w file_path pattern st = (Ret tt, st1).
Proof.
  intros Hl Hs Hm. unfold replace_references, bind, read_file.
  rewrite Hl, Hs, Hm, set_iter_nil. reflexivity.
Qed.

(** C2 fails on the code.  The srcset pass downloads the image and
    substitutes its url in the content held in memory; the pattern then
    finds nothing, [modified] stays false and the page on disk keeps the
    url: nothing is written and no line Updated is printed. *)
Theorem srcset_only_change_is_lost :
  let st := empty_state srcset_only_tree in
  exists st',
    replace_references obliging_world ["a.html"] html_img_pattern st
    = (Ret tt, st') /\
    fst (replace_urls_in_srcset obliging_world srcset_only_page st)
    = Ret ("<img srcset=" ++ quoted "assets/a.png 1x" ++ ">") /\
    Fs.lookup ["assets"; "a.png"] (fs st') = Some (Fs.File "PNGdata") /\
    Fs.lookup ["a.html"] (fs st') = Some (Fs.File srcset_only_page) /\
    out st' = [Downloaded "a.png"] /\
    Fs.lookup ["a.html"] (fs (snd (main obliging_world st)))
    = Some (Fs.File srcset_only_page).
Proof.
  intros st. eexists.
  split; [vm_compute; reflexivity|]. split; [vm_compute; reflexivity|].
  split; [vm_compute; reflexivity|]. split; [vm_compute; reflexivity|].
  split; vm_compute; reflexivity.
Qed.

(** * The directories do not change during a run *)

Lemma flat_map_put {X : Type} (f : string * Fs.node -> list X) (k : string)
    (v : Fs.node) (es : list (string * Fs.node)) :
  (forall v0, Fs.assoc k es = Some v0 -> f (k, v) = f (k, v0)) ->
  (Fs.assoc k es = None -> f (k, v) = []) ->
  flat_map f (Fs.put k v es) = flat_map f es.
Proof.
  induction es as [|[k' v'] es IH]; simpl; intros H1 H2.
  - now rewrite H2.
  - destruct (String.eqb_spec k k') as [<-|Hne]; simpl.
    + now rewrite (H1 v').
    + f_equal. apply IH; assumption.
Qed.

Lemma write_dirs (p : OsPath.path) (data : string) :
  forall n n' here, Fs.write p data n = Some n' ->
  Fs.dirs here n' = Fs.dirs here n.
Proof.
  induction p as [|c p IH]; intros n n' here H;
    apply write_inv in H as (es & c0 & p' & -> & E & H); inv E.
  destruct H as [(-> & -> & Hnd) | (Hne & m & m' & Ha & Hw & ->)];
    simpl; f_equal; apply flat_map_put; simpl.
  - intros [d|es0] Hv; [reflexivity | now destruct (Hnd es0)].
  - reflexivity.
  - intros v0 Hv. rewrite Ha in Hv. inv Hv. now apply IH.
  - congruence.
Qed.

Section Stable.

(** A relation between states that holds across every elementary step
    of the program holds across the program. *)
Variable R : state -> state -> Prop.
Hypothesis R_refl : forall st, R st st.
Hypothesis R_trans : forall a b c, R a b -> R b c -> R a c.
Hypothesis R_out : forall m st, R st (add_out m st).
Hypothesis R_request : forall url st, R st (add_request url st).
Hypothesis R_read : forall p st, R st (add_read p st).
Hypothesis R_write :
  forall p data st n', Fs.write p data (fs st) = Some n' -> R st (with_fs n' st).

Variable w : world.

Lemma stable_print (m : message) : keeps R (print m).
Proof. intros st. apply R_out. Qed.

Lemma stable_write (p : OsPath.path) (data : string) : keeps R (write_file p data).
Proof.
  intros st. unfold write_file.
  destruct (Fs.write p data (fs st)) eqn:E; simpl; [now apply R_write with p data | apply R_refl].
Qed.

Lemma stable_download (url : string) (folder : OsPath.path) :
  keeps R (download_file w url folder).
Proof.
  unfold download_file.
  destruct (local_name w url) as [name|]; [|now apply keeps_raise].
  apply keeps_bind; [assumption | intros st; apply R_refl |].
  intros [|].
  { apply keeps_bind; [assumption | apply stable_print |].
    intros _. now apply keeps_ret. }
  apply keeps_bind; [assumption | intros st; apply R_request |].
  intros [|status chunks complete].
  { apply keeps_bind; [assumption | apply stable_print |].
    intros _. now apply keeps_ret. }
  destruct (Nat.eqb status 200).
  - apply keeps_bind; [assumption | apply stable_write |]. intros _.
    destruct complete;
      (apply keeps_bind; [assumption | apply stable_print |];
       intros _; now apply keeps_ret).
  - apply keeps_bind; [assumption | apply stable_print |].
    intros _. now apply keeps_ret.
Qed.

Lemma stable_replace_references (p : OsPath.path) (pattern : Re.pattern) :
  keeps R (replace_references w p pattern).
Proof.
  unfold replace_references.
  apply keeps_bind; [assumption | |].
  { intros st. unfold read_file.
    destruct (Fs.lookup p (fs st)) as [[d|es]|]; simpl;
      [apply R_read | apply R_refl | apply R_refl]. }
  intros content. apply keeps_bind; [assumption | |].
  { unfold replace_urls_in_srcset.
    apply keeps_foldM; [assumption | assumption |]. intros b m.
    apply keeps_foldM; [assumption | assumption |]. intros b' part.
    unfold srcset_part.
    destruct (Str.startswith "http" (srcset_candidate part));
      [|now apply keeps_ret].
    destruct (folder_for w (srcset_candidate part)); [|now apply keeps_raise].
    apply keeps_bind; [assumption | apply stable_download |].
    intros lp. destruct (truthy lp); now apply keeps_ret. }
  intros content'. apply keeps_bind; [assumption | |].
  { apply keeps_foldM; [assumption | assumption |]. intros b url.
    unfold reference. destruct (folder_for w url); [|now apply keeps_raise].
    apply keeps_bind; [assumption | apply stable_download |].
    intros lp. destruct (truthy lp); now apply keeps_ret. }
  intros acc. destruct (snd acc); [|now apply keeps_ret].
  apply keeps_bind; [assumption | apply stable_write |].
  intros _. apply stable_print.
Qed.

Lemma stable_process_files : keeps R (process_files w).
Proof.
  unfold process_files.
  apply keeps_bind; [assumption | intros st; apply R_refl |].
  intros roots. apply keeps_for_each; [assumption | assumption |].
  intros root. apply keeps_bind; [assumption | intros st; apply R_refl |].
  intros files. apply keeps_for_each; [assumption | assumption |].
  intros file. unfold process_file.
  destruct (is_html file).
  - repeat (apply keeps_bind;
            [assumption | apply stable_replace_references | intros _]).
    apply stable_replace_references.
  - destruct (is_css file);
      [apply stable_replace_references | now apply keeps_ret].
Qed.

End Stable.

(** X12.  The directories that [os.walk] would find are the same at every
    moment of the run: listing them at the start, as [process_files]
    does, is listing them on arrival. *)
Lemma dirs_stable (w : world) (st : state) :
  Fs.dirs [] (fs (snd (process_files w st))) = Fs.dirs [] (fs st).
Proof.
  apply (stable_process_files
           (fun a b => forall here, Fs.dirs here (fs b) = Fs.dirs here (fs a)));
    try (intros; reflexivity).
  - intros a b c H1 H2 here. now rewrite H2, H1.
  - intros p data s n' H here. simpl. now apply write_dirs with p data.
Qed.

(** * The iteration over a set *)

Lemma inb_In (x : string) (l : list string) : Str.inb x l = true <-> In x l.
Proof.
  unfold Str.inb. rewrite existsb_exists. split.
  - intros (y & Hy & E). apply String.eqb_eq in E. now subst.
  - intros H. exists x. split; [assumption | apply String.eqb_refl].
Qed.

Lemma inb_not_In (x : string) (l : list string) :
  Str.inb x l = false <-> ~ In x l.
Proof.
  rewrite <- inb_In. destruct (Str.inb x l); split; congruence.
Qed.

Lemma dedup_In (x : string) (l seen : list string) :
  In x (dedup seen l) <-> In x l /\ ~ In x seen.
Proof.
  revert seen; induction l as [|y l IH]; intros seen; simpl.
  - tauto.
  - destruct (Str.inb y seen) eqn:E.
    + apply inb_In in E. rewrite IH. split.
      * intros [H1 H2]. auto.
      * intros [[->|H1] H2]; [contradiction | auto].
    + apply inb_not_In in E. simpl. rewrite IH. simpl. split.
      * intros [->|[H1 H2]]; auto.
      * intros [[->|H1] H2]; [now left|].
        destruct (string_dec y x) as [->|Hne]; [now left | right].
        split; [assumption | intros [?|?]; contradiction].
Qed.

Lemma dedup_NoDup (l seen : list string) : NoDup (dedup seen l).
Proof.
  revert seen; induction l as [|y l IH]; intros seen; simpl.
  - constructor.
  - destruct (Str.inb y seen); [apply IH|].
    constructor; [|apply IH].
    rewrite dedup_In. intros [_ H]. apply H. now left.
Qed.

Lemma dedup_seen (l seen : list string) :
  (forall x, In x l -> In x seen) -> dedup seen l = [].
Proof.
  revert seen; induction l as [|y l IH]; intros seen H; simpl; [reflexivity|].
  assert (E : Str.inb y seen = true) by (apply inb_In, H; now left).
  rewrite E. apply IH. intros x Hx. apply H. now right.
Qed.

Lemma dedup_prefix (a b seen : list string) :
  NoDup a -> (forall x, In x a -> ~ In x seen) ->
  (forall x, In x b -> In x a \/ In x seen) ->
  dedup seen (a ++ b)%list = a.
Proof.
  revert seen; induction a as [|y a IH]; intros seen Hnd Ha Hb; simpl.
  - apply dedup_seen. intros x Hx. destruct (Hb x Hx) as [[]|H]; assumption.
  - inv Hnd.
    assert (E : Str.inb y seen = false) by (apply inb_not_In, Ha; now left).
    rewrite E. f_equal. apply IH; [assumption | |].
    + intros x Hx [->|H]; [contradiction|]. apply (Ha x); [now right | assumption].
    + intros x Hx. destruct (Hb x Hx) as [[->|H]|H]; simpl; auto.
Qed.

Lemma filter_all {A : Type} (f : A -> bool) (l : list A) :
  (forall x, In x l -> f x = true) -> List.filter f l = l.
Proof.
  induction l as [|x l IH]; intros H; simpl; [reflexivity|].
  rewrite (H x (or_introl eq_refl)). f_equal. apply IH.
  intros y Hy. apply H. now right.
Qed.

(** The loop over [set(matches)] meets every match, once. *)
Lemma set_iter_spec (w : world) (l : list string) :
  NoDup (set_iter w l) /\ forall x, In x (set_iter w l) <-> In x l.
Proof.
  unfold set_iter. split; [apply dedup_NoDup|].
  intros x. rewrite dedup_In, in_app_iff, filter_In, inb_In. simpl. tauto.
Qed.

(** Any order can be the order of the loop. *)
Lemma set_iter_any_order (w : world) (l order : list string) :
  NoDup order -> (forall x, In x order <-> In x l) ->
  set_pick w l = order -> set_iter w l = order.
Proof.
  intros Hnd Hin Hp. unfold set_iter. rewrite Hp.
  rewrite filter_all by (intros x Hx; apply inb_In, Hin, Hx).
  apply dedup_prefix; [assumption | auto |].
  intros x Hx. left. now apply Hin.
Qed.

(** * Further facts about the file tree *)

Lemma put_same (k : string) (v : Fs.node) (es : list (string * Fs.node)) :
  Fs.assoc k es = Some v -> Fs.put k v es = es.
Proof.
  induction es as [|[k' v'] es IH]; simpl; [discriminate|].
  destruct (String.eqb_spec k k') as [<-|Hne]; intros H.
  - now inv H.
  - f_equal. now apply IH.
Qed.

Lemma put_put (k : string) (v v' : Fs.node) (es : list (string * Fs.node)) :
  Fs.put k v (Fs.put k v' es) = Fs.put k v es.
Proof.
  induction es as [|[k' v0] es IH]; simpl.
  - now rewrite String.eqb_refl.
  - destruct (String.eqb_spec k k') as [<-|Hne]; simpl.
    + now rewrite String.eqb_refl.
    + destruct (String.eqb_spec k k'); [contradiction | now rewrite IH].
Qed.

(** A file found after a write is the file written or was there before. *)
Lemma write_lookup_back (p : OsPath.path) (data : string) :
  forall n n' q d, Fs.write p data n = Some n' ->
  Fs.lookup q n' = Some (Fs.File d) ->
  q = p \/ Fs.lookup q n = Some (Fs.File d).
Proof.
  induction p as [|c p IH]; intros n n' q d H Hl;
    apply write_inv in H as (es & c0 & p' & -> & E & H); inv E.
  destruct q as [|c' q']; [simpl in Hl; destruct H as [(_ & -> & _)|(_ & m & m' & _ & _ & ->)]; discriminate|].
  simpl in Hl |- *.
  destruct (string_dec c' c0) as [->|Hc].
  - destruct H as [(-> & -> & Hnd) | (Hne & m & m' & Ha & Hw & ->)];
      rewrite assoc_put_same in Hl.
    + apply lookup_file_nil in Hl. subst. now left.
    + rewrite Ha. destruct (IH m m' q' d Hw Hl) as [->|H]; [now left | now right].
  - right.
    destruct H as [(-> & -> & Hnd) | (Hne & m & m' & Ha & Hw & ->)];
      now rewrite assoc_put_other in Hl.
Qed.

Lemma lookup_empty_dir (q : OsPath.path) (d : string) :
  Fs.lookup q (Fs.Dir []) <> Some (Fs.File d).
Proof. destruct q; discriminate. Qed.

(** [makedirs] neither creates nor loses a file, and doing it again
    changes nothing. *)
Lemma makedirs_files (p : OsPath.path) :
  forall n n' q d, Fs.makedirs p n = Some n' ->
  (Fs.lookup q n = Some (Fs.File d) <-> Fs.lookup q n' = Some (Fs.File d)).
Proof.
  induction p as [|c p IH]; intros n n' q d H; destruct n as [d0|es];
    simpl in H; try discriminate.
  - inv H. tauto.
  - destruct (Fs.makedirs p _) as [m'|] eqn:E; [|discriminate]. inv H.
    destruct q as [|c' q']; [simpl; split; discriminate|]. simpl.
    destruct (string_dec c' c) as [->|Hc].
    + rewrite assoc_put_same.
      destruct (Fs.assoc c es) as [m|] eqn:Ha.
      * now apply IH with (n := m).
      * split; [discriminate|]. intros Hl.
        apply (IH (Fs.Dir []) m' q' d E) in Hl.
        now apply lookup_empty_dir in Hl.
    + now rewrite assoc_put_other.
Qed.

Lemma makedirs_again (p : OsPath.path) :
  forall n n', Fs.makedirs p n = Some n' -> Fs.makedirs p n' = Some n'.
Proof.
  induction p as [|c p IH]; intros n n' H; destruct n as [d0|es];
    simpl in H; try discriminate.
  - now inv H.
  - destruct (Fs.makedirs p _) as [m'|] eqn:E; [|discriminate]. inv H.
    simpl. rewrite assoc_put_same, (IH _ _ E). now rewrite put_put.
Qed.

Lemma makedirs_existing (p : OsPath.path) :
  forall n, Fs.is_dir p n = true -> Fs.makedirs p n = Some n.
Proof.
  unfold Fs.is_dir.
  induction p as [|c p IH]; intros n H; destruct n as [d|es]; simpl in *;
    try discriminate; [reflexivity|].
  destruct (Fs.assoc c es) as [m|] eqn:Ha; [|discriminate].
  rewrite (IH m H). now rewrite (put_same c m es Ha).
Qed.

(** * The start of the program *)

(** X1.  Lines 12-13 succeed exactly when no regular file stands where
    the project root, assets or assets/fonts should be a directory.  On
    success both folders exist, the files of the tree are the same as
    before with the same contents, nothing is requested, read or
    printed, and running the lines again changes nothing.  On failure
    the exception is an OSError, the tree is as it was and one of the
    three places holds a regular file. *)
Theorem startup_effect (st : state) :
  match startup st with
  | (Ret _, st') =>
      Fs.is_dir assets_folder (fs st') = true /\
      Fs.is_dir fonts_folder (fs st') = true /\
      (forall q d, Fs.lookup q (fs st) = Some (Fs.File d)
                   <-> Fs.lookup q (fs st') = Some (Fs.File d)) /\
      startup st' = (Ret tt, st') /\
      requests st' = requests st /\ reads st' = reads st /\ out st' = out st
  | (Raise e, st') =>
      e = OSError /\ fs st' = fs st /\
      ((exists d, fs st = Fs.File d) \/
       (exists d, Fs.lookup assets_folder (fs st) = Some (Fs.File d)) \/
       (exists d, Fs.lookup fonts_folder (fs st) = Some (Fs.File d)))
  end.
Proof.
  destruct (startup st) as [[[]|e] st'] eqn:E.
  - destruct (startup_folders st st' E) as [Ha Hf].
    unfold startup, makedirs, bind in E.
    destruct (Fs.makedirs assets_folder (fs st)) as [n1|] eqn:E1; [|discriminate].
    cbn [fs with_fs] in E.
    destruct (Fs.makedirs fonts_folder n1) as [n2|] eqn:E2; [|discriminate].
    inv E. cbn [fs with_fs requests reads out] in *.
    split; [exact Ha|]. split; [exact Hf|]. split.
    { intros q d. rewrite (makedirs_files _ _ _ q d E1).
      apply (makedirs_files _ _ _ q d E2). }
    split; [|repeat split].
    unfold startup, makedirs, bind. cbn [fs with_fs].
    rewrite (makedirs_existing _ _ Ha). cbn [fs with_fs].
    now rewrite (makedirs_existing _ _ Hf).
  - unfold startup, makedirs, bind in E.
    destruct (fs st) as [d|es] eqn:Efs.
    { simpl in E. inv E. repeat split; eauto. }
    unfold assets_folder, fonts_folder in *. simpl in E |- *.
    destruct (Fs.assoc "assets" es) as [[d|es1]|] eqn:Ha; simpl in E.
    + inv E. repeat split; eauto.
    + rewrite assoc_put_same in E.
      destruct (Fs.assoc "fonts" es1) as [[d|es2]|] eqn:Hf; simpl in E;
        try discriminate.
      inv E. simpl. rewrite (put_same _ _ _ Ha). repeat split; eauto.
    + rewrite assoc_put_same in E. simpl in E. discriminate.
Qed.

(** * More about [download_file] *)

Lemma local_name_safe (w : world) (url name : string) :
  local_name w url = Some name -> Str.forallb safe_char name = true.
Proof.
  unfold local_name. destruct (Url.path _ _); [|discriminate].
  intros H; inv H. rewrite sub_unsafe. apply forallb_filter.
Qed.

Lemma write_parent (folder : OsPath.path) (name data : string)
    (n n' : Fs.node) :
  Fs.write (folder ++ [name])%list data n = Some n' ->
  Fs.is_dir folder n' = true.
Proof.
  intros H. apply write_lookup_same in H. now apply lookup_parent in H.
Qed.

(** X2.  What one call of [download_file] does to the tree and to the
    network.  No file that exists is overwritten or removed.  At most
    one file is created, and only at the target folder joined with the
    sanitized name, whose characters are all in [[A-Za-z0-9._-]].  A
    request is made exactly when the name is defined and not on disk,
    and it is made for the url as given, not for the sanitized one.  No
    file is read. *)
Theorem download_file_effect (w : world) (url : string)
    (folder : OsPath.path) (st : state) :
  let st' := snd (download_file w url folder st) in
  (forall q d, Fs.lookup q (fs st) = Some (Fs.File d) ->
               Fs.lookup q (fs st') = Some (Fs.File d)) /\
  (forall q d, Fs.lookup q (fs st') = Some (Fs.File d) ->
               Fs.lookup q (fs st) = Some (Fs.File d) \/
               exists name, local_name w url = Some name /\
                            q = (folder ++ [name])%list /\
                            Str.forallb safe_char name = true) /\
  requests st'
  = match local_name w url with
    | Some name =>
        if Fs.exists_in folder name (fs st) then requests st
        else (requests st ++ [url])%list
    | None => requests st
    end /\
  reads st' = reads st.
Proof.
  intros st'. split.
  { intros q d Hq. destruct (download_file_frame w url folder st) as (F & _).
    now apply F. }
  subst st'. unfold download_file.
  destruct (local_name w url) as [name|] eqn:Hn; [|simpl; auto].
  step_m. destruct (Fs.exists_in folder name (fs st)); [simpl; auto|].
  destruct (server w (requests st) url) as [|status chunks complete];
    [simpl; auto|].
  destruct (Nat.eqb status 200); [|simpl; auto].
  cbn [fs add_request].
  destruct (Fs.write (folder ++ [name])%list (String.concat "" chunks) (fs st))
    as [n'|] eqn:Hw; [|simpl; auto].
  assert (B : forall q d, Fs.lookup q n' = Some (Fs.File d) ->
              Fs.lookup q (fs st) = Some (Fs.File d) \/
              exists name0, Some name = Some name0 /\
                            q = (folder ++ [name0])%list /\
                            Str.forallb safe_char name0 = true).
  { intros q d Hq.
    destruct (write_lookup_back _ _ _ _ _ _ Hw Hq) as [->|H]; [right | now left].
    exists name. repeat split. exact (local_name_safe w url name Hn). }
  destruct complete; simpl; auto.
Qed.

(** X3.  The outcomes of [download_file].  A path is returned only for
    something that is on disk in the target folder when the call ends,
    and it is the relative path of the sanitized name.  None is returned
    only after a request for the url, with the failure printed last.
    A ValueError (from urlparse) comes before any effect.  An OSError
    (from opening the destination) comes after the request, leaves the
    tree as it was, and is possible only when the target folder is not a
    directory or the sanitized name is longer than 255 bytes. *)
Theorem download_file_outcome (w : world) (url : string)
    (folder : OsPath.path) (st : state) :
  match download_file w url folder st with
  | (Ret (Some rel), st') =>
      exists name,
        local_name w url = Some name /\
        rel = OsPath.relpath folder name /\
        Fs.exists_in folder name (fs st') = true
  | (Ret None, st') =>
      requests st' = (requests st ++ [url])%list /\
      exists m,
        out st' = (out st ++ [m])%list /\
        (m = RequestFailed url \/
         exists status, status <> 200 /\ m = FailedStatus status url)
  | (Raise ValueError, st') => local_name w url = None /\ st' = st
  | (Raise OSError, st') =>
      (Fs.is_dir folder (fs st) = false \/
       exists name, local_name w url = Some name /\ Fs.name_ok name = false) /\
      fs st' = fs st /\ requests st' = (requests st ++ [url])%list
  end.
Proof.
  unfold download_file.
  destruct (local_name w url) as [name|] eqn:Hn; [|simpl; auto].
  step_m. destruct (Fs.exists_in folder name (fs st)) eqn:He.
  { simpl. exists name. auto. }
  destruct (server w (requests st) url) as [|status chunks complete].
  { simpl. split; [reflexivity|]. eexists. split; [reflexivity | now left]. }
  destruct (Nat.eqb_spec status 200) as [->|Hs].
  2:{ simpl. split; [reflexivity|]. eexists. split; [reflexivity|].
      right. now exists status. }
  cbn [fs add_request].
  destruct (Fs.write (folder ++ [name])%list (String.concat "" chunks) (fs st))
    as [n'|] eqn:Hw.
  - destruct complete; simpl.
    + exists name. split; [reflexivity|]. split; [reflexivity|].
      unfold Fs.exists_in. rewrite (write_parent _ _ _ _ _ Hw).
      rewrite (write_lookup_same _ _ _ _ Hw). now destruct (OsPath.special name).
    + split; [reflexivity|]. eexists. split; [reflexivity | now left].
  - simpl. split; [|split; reflexivity].
    destruct (Fs.is_dir folder (fs st)) eqn:Hd; [|now left].
    destruct (Fs.name_ok name) eqn:Hok; [|right; now exists name].
    destruct (not_special_exists _ _ _ Hd He) as [_ Hl].
    destruct (write_new folder name (String.concat "" chunks) Hok (fs st) Hd Hl)
      as [n' Hn']. congruence.
Qed.

(** * The files of the tree across a run *)

Lemma files_grow_refl (st : state) : files_grow st st.
Proof. split; intros q d H; eauto. Qed.

Lemma files_grow_trans (a b c : state) :
  files_grow a b -> files_grow b c -> files_grow a c.
Proof.
  intros [K1 B1] [K2 B2]. split.
  - intros q d H. destruct (K1 q d H) as [d1 H1]. apply (K2 q d1 H1).
  - intros q d H. destruct (B2 q d H) as [[d1 H1]|H1]; [|now right].
    apply (B1 q d1 H1).
Qed.

Lemma files_grow_same_tree (st st' : state) :
  fs st' = fs st -> files_grow st st'.
Proof. intros E. unfold files_grow. rewrite E. split; intros q d H; eauto. Qed.

(** Writing over a file, or creating a file of the program. *)
Lemma files_grow_write (p : OsPath.path) (data : string) (st : state)
    (n' : Fs.node) :
  Fs.write p data (fs st) = Some n' ->
  (exists d, Fs.lookup p (fs st) = Some (Fs.File d)) \/ asset_file p ->
  files_grow st (with_fs n' st).
Proof.
  intros Hw Hp. split; cbn [fs with_fs].
  - intros q d H. destruct (list_eq_dec string_dec q p) as [->|Hne].
    + rewrite (write_lookup_same _ _ _ _ Hw). eauto.
    + rewrite (write_lookup_other _ _ _ _ _ _ Hw Hne H). eauto.
  - intros q d H.
    destruct (write_lookup_back _ _ _ _ _ _ Hw H) as [->|H1]; [|eauto].
    destruct Hp as [Hp|Hp]; [now left | now right].
Qed.

Lemma download_file_grow (w : world) (url : string) (folder : OsPath.path) :
  folder = assets_folder \/ folder = fonts_folder ->
  keeps files_grow (download_file w url folder).
Proof.
  intros Hf st. unfold download_file.
  destruct (local_name w url) as [name|] eqn:Hn; [|apply files_grow_refl].
  step_m. destruct (Fs.exists_in folder name (fs st));
    [now apply files_grow_same_tree|].
  destruct (server w (requests st) url) as [|status chunks complete];
    [now apply files_grow_same_tree|].
  destruct (Nat.eqb status 200); [|now apply files_grow_same_tree].
  cbn [fs add_request].
  destruct (Fs.write (folder ++ [name])%list (String.concat "" chunks) (fs st))
    as [n'|] eqn:Hw; [|now apply files_grow_same_tree].
  assert (G : files_grow st (with_fs n' (add_request url st))).
  { apply files_grow_trans with (b := add_request url st);
      [now apply files_grow_same_tree|].
    apply files_grow_write with (p := (folder ++ [name])%list)
                                (data := String.concat "" chunks);
      [exact Hw|]. right. exists name. split.
    - destruct Hf as [->| ->]; auto.
    - exact (local_name_safe w url name Hn). }
  destruct complete; simpl;
    (eapply files_grow_trans; [exact G | now apply files_grow_same_tree]).
Qed.

Lemma srcset_grow (w : world) (content : string) :
  keeps files_grow (replace_urls_in_srcset w content).
Proof.
  unfold replace_urls_in_srcset.
  apply keeps_foldM; [apply files_grow_refl | apply files_grow_trans |].
  intros b m. apply keeps_foldM; [apply files_grow_refl | apply files_grow_trans |].
  intros b' part. unfold srcset_part.
  destruct (Str.startswith "http" (srcset_candidate part));
    [|apply keeps_ret, files_grow_refl].
  destruct (folder_for w (srcset_candidate part)) as [folder|] eqn:Hf;
    [|apply keeps_raise, files_grow_refl].
  apply keeps_bind; [apply files_grow_trans | |].
  - apply download_file_grow. exact (folder_for_cases _ _ _ Hf).
  - intros lp. destruct (truthy lp); apply keeps_ret, files_grow_refl.
Qed.

Lemma references_grow (w : world) (urls : list string) (acc : string * bool) :
  keeps files_grow (foldM (reference w) urls acc).
Proof.
  apply keeps_foldM; [apply files_grow_refl | apply files_grow_trans |].
  intros b url. unfold reference.
  destruct (folder_for w url) as [folder|] eqn:Hf;
    [|apply keeps_raise, files_grow_refl].
  apply keeps_bind; [apply files_grow_trans | |].
  - apply download_file_grow. exact (folder_for_cases _ _ _ Hf).
  - intros lp. destruct (truthy lp); apply keeps_ret, files_grow_refl.
Qed.

(** The state after a sequence is the state after its second part, run
    from the state after the first. *)
Lemma bind_state {A B : Type} (c : M A) (f : A -> M B) (st : state) :
  snd (bind c f st)
  = match c st with
    | (Ret a, st1) => snd (f a st1)
    | (Raise _, st1) => st1
    end.
Proof. unfold bind. now destruct (c st) as [[a|e] st1]. Qed.

Lemma replace_references_grow (w : world) (file_path : OsPath.path)
    (pattern : Re.pattern) :
  keeps files_grow (replace_references w file_path pattern).
Proof.
  intros st. unfold replace_references. rewrite bind_state.
  unfold read_file at 1.
  destruct (Fs.lookup file_path (fs st)) as [[d0|es]|] eqn:Hl;
    try apply files_grow_refl.
  rewrite bind_state.
  pose proof (srcset_grow w (Str.universal_newlines d0)
                (add_read file_path st)) as G1.
  destruct (replace_urls_in_srcset w (Str.universal_newlines d0)
              (add_read file_path st))
    as [[content|e] st1]; cbn [snd] in G1;
    [|eapply files_grow_trans; [now apply files_grow_same_tree | exact G1]].
  rewrite bind_state.
  pose proof (references_grow w
                (set_iter w (Re.findall pattern content)) (content, false) st1)
    as G2.
  destruct (foldM (reference w) (set_iter w (Re.findall pattern content))
              (content, false) st1) as [[acc|e] st2]; cbn [snd] in G2.
  2:{ eapply files_grow_trans; [now apply files_grow_same_tree|].
      eapply files_grow_trans; eassumption. }
  assert (G : files_grow st st2).
  { eapply files_grow_trans; [now apply (files_grow_same_tree st (add_read file_path st))|].
    eapply files_grow_trans; eassumption. }
  destruct (snd acc); [|exact G].
  rewrite bind_state. unfold write_file.
  destruct (Fs.write file_path (fst acc) (fs st2)) as [n'|] eqn:Hw; [|exact G].
  cbn [snd print].
  eapply files_grow_trans; [exact G|].
  eapply files_grow_trans; [|now apply files_grow_same_tree].
  apply files_grow_write with (p := file_path) (data := fst acc); [exact Hw|].
  left. destruct G as [K _]. exact (K file_path d0 Hl).
Qed.

(** X4.  Across a run of [process_files] no file disappears or turns
    into a directory, and the only files that appear are files stored
    by the program: directly in assets or in assets/fonts, under a name
    made of characters of [[A-Za-z0-9._-]].  Nothing is ever created
    anywhere else under the root. *)
Theorem run_files (w : world) (st : state) :
  let st' := snd (process_files w st) in
  (forall q d, Fs.lookup q (fs st) = Some (Fs.File d) ->
               exists d', Fs.lookup q (fs st') = Some (Fs.File d')) /\
  (forall q d, Fs.lookup q (fs st') = Some (Fs.File d) ->
               (exists d', Fs.lookup q (fs st) = Some (Fs.File d')) \/
               exists name,
                 (q = ["assets"; name] \/ q = ["assets"; "fonts"; name]) /\
                 Str.forallb safe_char name = true).
Proof.
  intros st'.
  assert (G : files_grow st st').
  { unfold st', process_files.
    apply keeps_bind; [apply files_grow_trans | |].
    { intros s. unfold list_dirs. destruct (Fs.lookup project_root (fs s));
        apply files_grow_refl. }
    intros roots.
    apply keeps_for_each; [apply files_grow_refl | apply files_grow_trans |].
    intros root.
    apply keeps_bind; [apply files_grow_trans | intros s; apply files_grow_refl |].
    intros files.
    apply keeps_for_each; [apply files_grow_refl | apply files_grow_trans |].
    intros file. unfold process_file. destruct (is_html file).
    - repeat (apply keeps_bind;
              [apply files_grow_trans | apply replace_references_grow | intros _]).
      apply replace_references_grow.
    - destruct (is_css file);
        [apply replace_references_grow | apply keeps_ret, files_grow_refl]. }
  destruct G as [K B]. split; [exact K|].
  intros q d H. destruct (B q d H) as [H1|(name & Hq & Hs)]; [now left | right].
  exists name. split; [exact Hq | exact Hs].
Qed.

(** * A url that urlparse rejects *)

Lemma filter_app (f : ascii -> bool) (a b : string) :
  Str.filter f (a ++ b) = Str.filter f a ++ Str.filter f b.
Proof.
  induction a as [|c a IH]; simpl; [reflexivity|].
  destruct (f c); simpl; now rewrite IH.
Qed.

Lemma mem_filter (f : ascii -> bool) (c : ascii) (s : string) :
  f c = true -> Str.mem c (Str.filter f s) = Str.mem c s.
Proof.
  intros Hc. induction s as [|d s IH]; simpl; [reflexivity|].
  destruct (f d) eqn:Hd; simpl; [now rewrite IH|].
  rewrite IH. destruct (Ascii.eqb_spec c d); [congruence | reflexivity].
Qed.

Lemma forallb_filter_keep (f g : ascii -> bool) (s : string) :
  Str.forallb g s = true -> Str.forallb g (Str.filter f s) = true.
Proof.
  induction s as [|d s IH]; simpl; [reflexivity|].
  intros H. apply andb_true_iff in H as [H1 H2].
  destruct (f d); simpl; [now rewrite H1, IH | now apply IH].
Qed.

Lemma take_while_app (g : ascii -> bool) (a b : string) (c : ascii) :
  Str.forallb g a = true -> g c = false ->
  Str.take_while g (a ++ String c b) = a.
Proof.
  intros Ha Hc. induction a as [|d a IH]; simpl in *.
  - now rewrite Hc.
  - apply andb_true_iff in Ha as [H1 H2]. now rewrite H1, IH.
Qed.

Lemma rejected_netloc (ok : string -> bool) (scheme host rest : string) :
  scheme = "http" \/ scheme = "https" ->
  xorb (Str.mem "[" host) (Str.mem "]" host) = true ->
  Str.forallb (fun c => negb (Url.netloc_end c)) host = true ->
  Url.path ok (scheme ++ "://" ++ host ++ "/" ++ rest) = None.
Proof.
  intros Hs Hx Hh.
  set (keep := fun c => negb (Url.unsafe_byte c)).
  set (host' := Str.filter keep host).
  assert (Hx' : xorb (Str.mem "[" host') (Str.mem "]" host') = true).
  { unfold host'. now rewrite !mem_filter by reflexivity. }
  assert (Hh' : Str.forallb (fun c => negb (Url.netloc_end c)) host' = true)
    by now apply forallb_filter_keep.
  assert (Hn : Url.netloc_accepted ok host' = false).
  { unfold Url.netloc_accepted.
    destruct (Str.mem "[" host'), (Str.mem "]" host'); simpl in *; congruence. }
  assert (E : forall tail,
    Url.split_netloc ("//" ++ host' ++ "/" ++ tail)
    = (host', Str.drop_while (fun c => negb (Url.netloc_end c))
                (host' ++ "/" ++ tail))).
  { intros tail. unfold Url.split_netloc, Str.startswith.
    rewrite (prefix_app "//"). cbn [Str.drop append].
    now rewrite take_while_app. }
  unfold Url.path.
  destruct Hs as [-> | ->].
  - change (Str.drop_while Url.c0_control_or_space
              ("http" ++ "://" ++ host ++ "/" ++ rest))
      with ("http://" ++ host ++ "/" ++ rest).
    rewrite (filter_app _ "http://"), filter_app.
    change (Str.filter (fun c => negb (Url.unsafe_byte c)) "http://")
      with "http://".
    change (Str.filter (fun c => negb (Url.unsafe_byte c)) host) with host'.
    change (Str.filter (fun c => negb (Url.unsafe_byte c)) ("/" ++ rest))
      with ("/" ++ Str.filter keep rest).
    change (Url.split_scheme ("http://" ++ host' ++ "/" ++ Str.filter keep rest))
      with ("http", "//" ++ host' ++ "/" ++ Str.filter keep rest).
    cbv beta iota. rewrite E. cbv beta iota. now rewrite Hn.
  - change (Str.drop_while Url.c0_control_or_space
              ("https" ++ "://" ++ host ++ "/" ++ rest))
      with ("https://" ++ host ++ "/" ++ rest).
    rewrite (filter_app _ "https://"), filter_app.
    change (Str.filter (fun c => negb (Url.unsafe_byte c)) "https://")
      with "https://".
    change (Str.filter (fun c => negb (Url.unsafe_byte c)) host) with host'.
    change (Str.filter (fun c => negb (Url.unsafe_byte c)) ("/" ++ rest))
      with ("/" ++ Str.filter keep rest).
    change (Url.split_scheme ("https://" ++ host' ++ "/" ++ Str.filter keep rest))
      with ("https", "//" ++ host' ++ "/" ++ Str.filter keep rest).
    cbv beta iota. rewrite E. cbv beta iota. now rewrite Hn.
Qed.

(** X5.  A url whose network location has one kind of square bracket
    without the other is refused by urlparse with a ValueError.  The
    program parses each url, to choose its folder, outside every try
    block: the loop of [replace_references] and the srcset pass both end
    there with the exception, before any request, print or write, and
    the urls that follow are not handled. *)
Theorem unbalanced_bracket_aborts (w : world) (scheme host rest : string) :
  scheme = "http" \/ scheme = "https" ->
  xorb (Str.mem "[" host) (Str.mem "]" host) = true ->
  Str.forallb (fun c => negb (Url.netloc_end c)) host = true ->
  let url := scheme ++ "://" ++ host ++ "/" ++ rest in
  folder_for w url = None /\
  (forall acc urls st,
     foldM (reference w) (url :: urls) acc st = (Raise ValueError, st)) /\
  (forall content part parts st,
     srcset_candidate part = url ->
     foldM (srcset_part w) (part :: parts) content st = (Raise ValueError, st)).
Proof.
  intros Hs Hx Hh url.
  assert (Hf : folder_for w url = None).
  { unfold folder_for, url. now rewrite rejected_netloc. }
  assert (Hp : Str.startswith "http" url = true).
  { unfold url, Str.startswith. destruct Hs as [-> | ->].
    - apply (prefix_app "http").
    - apply (prefix_app "http" ("s" ++ "://" ++ host ++ "/" ++ rest)). }
  split; [exact Hf|]. split.
  - intros acc urls st. simpl. unfold bind, reference. now rewrite Hf.
  - intros content part parts st Hc. simpl. unfold bind, srcset_part.
    now rewrite Hc, Hp, Hf.
Qed.

Lemma unbalanced_bracket_aborts_witness :
  let url := "http://[x/a.png" in
  folder_for obliging_world url = None /\
  (forall acc urls st,
     foldM (reference obliging_world) (url :: urls) acc st
     = (Raise ValueError, st)) /\
  (forall content part parts st,
     srcset_candidate part = url ->
     foldM (srcset_part obliging_world) (part :: parts) content st
     = (Raise ValueError, st)).
Proof.
  exact (unbalanced_bracket_aborts obliging_world "http" "[x" "a.png"
           (or_introl eq_refl) eq_refl eq_refl).
Defined.

(** Such a url in a page ends the whole run: the style sheet that comes
    after the page is never opened and the closing line is not printed. *)
Example run_with_rejected_url :
  main obliging_world
    (empty_state
       (Fs.Dir [("index.html",
                 Fs.File ("<img src=" ++ quoted "http://[x/a.png" ++ ">"));
                ("style.css",
                 Fs.File ".a{background:url('https://cdn.test/font.woff2')}")]))
  = (Raise ValueError,
     {| fs := Fs.Dir
                [("index.html",
                  Fs.File ("<img src=" ++ quoted "http://[x/a.png" ++ ">"));
                 ("style.css",
                  Fs.File ".a{background:url('https://cdn.test/font.woff2')}");
                 ("assets", Fs.Dir [("fonts", Fs.Dir [])])];
        requests := []; reads := [["index.html"]]; out := [] |}).
Proof. vm_compute. reflexivity. Qed.

(** * A document that is local already *)




(** * Every change of a document is reported *)

Lemma references_frame (w : world) (urls : list string) (acc : string * bool) :
  keeps (frame nowhere) (foldM (reference w) urls acc).
Proof.
  apply keeps_foldM; [apply frame_refl | apply frame_trans |].
  intros b url. apply reference_frame.
Qed.

(** X7.  [replace_references] changes the content of its file only by
    the write at its end, and that write is followed by the line
    Updated: either the file holds what it held, or the last line
    printed is Updated with its path.  In particular the downloads of
    the call never land on the document. *)
Theorem document_change_is_reported (w : world) (file_path : OsPath.path)
    (pattern : Re.pattern) (st : state) (d : string) :
  Fs.lookup file_path (fs st) = Some (Fs.File d) ->
  let st' := snd (replace_references w file_path pattern st) in
  Fs.lookup file_path (fs st') = Some (Fs.File d) \/
  exists d' printed,
    Fs.lookup file_path (fs st') = Some (Fs.File d') /\
    out st' = (printed ++ [Updated file_path])%list.
Proof.
  intros Hl st'.
  assert (E : st' = snd (replace_references w file_path pattern st))
    by reflexivity.
  clearbody st'. unfold replace_references in E.
  rewrite bind_state in E. unfold read_file in E. rewrite Hl in E.
  cbv beta iota in E. rewrite bind_state in E.
  pose proof (srcset_frame w (Str.universal_newlines d)
                (add_read file_path st)) as F1.
  destruct (replace_urls_in_srcset w (Str.universal_newlines d)
              (add_read file_path st))
    as [[content|e] st1]; cbn [snd] in F1.
  2:{ subst st'. left. destruct F1 as (F & _). now apply F. }
  rewrite bind_state in E.
  pose proof (references_frame w (set_iter w (Re.findall pattern content))
                (content, false) st1) as F2.
  destruct (foldM (reference w) (set_iter w (Re.findall pattern content))
              (content, false) st1) as [[acc|e] st2]; cbn [snd] in F2.
  2:{ subst st'. left. destruct F1 as (F & _), F2 as (F' & _).
      apply F'; [|reflexivity]. now apply F. }
  assert (H2 : Fs.lookup file_path (fs st2) = Some (Fs.File d)).
  { destruct F1 as (F & _), F2 as (F' & _). apply F'; [|reflexivity].
    now apply F. }
  destruct (snd acc); [|subst st'; now left].
  rewrite bind_state in E. unfold write_file in E.
  destruct (Fs.write file_path (fst acc) (fs st2)) as [n'|] eqn:Hw;
    [|subst st'; now left].
  cbn [snd print] in E. subst st'.
  right. exists (fst acc), (out st2). split; [|reflexivity].
  cbn [add_out fs with_fs]. exact (write_lookup_same _ _ _ _ Hw).
Qed.

Lemma document_change_is_reported_witness :
  let st := snd (startup (empty_state site_tree)) in
  let st' := snd (replace_references obliging_world ["index.html"]
                    html_img_pattern st) in
  Fs.lookup ["index.html"] (fs st')
  = Some (Fs.File ("<img srcset="
                   ++ quoted "http://cdn.test/a.png 1x, http://cdn.test/b.png 2x"
                   ++ "> <img src=" ++ quoted "https://cdn.test/pic.jpg" ++ ">")) \/
  exists d' printed,
    Fs.lookup ["index.html"] (fs st') = Some (Fs.File d') /\
    out st' = (printed ++ [Updated ["index.html"]])%list.
Proof.
  exact (document_change_is_reported obliging_world ["index.html"]
           html_img_pattern (snd (startup (empty_state site_tree))) _ eq_refl).
Defined.

(** * What a run asks of the network *)

Lemma requests_http_refl (st : state) : requests_http st st.
Proof. intros u H. now left. Qed.

Lemma requests_http_trans (a b c : state) :
  requests_http a b -> requests_http b c -> requests_http a c.
Proof.
  intros H1 H2 u Hu. destruct (H2 u Hu) as [H|H]; [apply H1, H | now right].
Qed.

Lemma requests_http_same (st st' : state) :
  requests st' = requests st -> requests_http st st'.
Proof. intros E u H. left. now rewrite <- E. Qed.

Lemma keeps_foldM_in {A B : Type} (R : state -> state -> Prop)
    (f : B -> A -> M B) (l : list A) :
  (forall st, R st st) -> (forall a b c, R a b -> R b c -> R a c) ->
  (forall b a, In a l -> keeps R (f b a)) ->
  forall b, keeps R (foldM f l b).
Proof.
  intros Hr Ht. induction l as [|a l IH]; intros Hf b; simpl.
  - now apply keeps_ret.
  - apply keeps_bind; [assumption | apply Hf; now left |].
    intros b'. apply IH. intros b0 a0 Ha. apply Hf. now right.
Qed.

Lemma prefix_shorter (a b s : string) :
  String.prefix (a ++ b) s = true -> String.prefix a s = true.
Proof.
  revert s; induction a as [|c a IH]; intros [|d s] H;
    try reflexivity; try discriminate.
  simpl in *. destruct (ascii_dec c d); [now apply IH | discriminate].
Qed.

Lemma prefix_lower (p s : string) :
  String.prefix p s = true -> String.prefix (Str.lower p) (Str.lower s) = true.
Proof.
  revert s; induction p as [|c p IH]; intros [|d s] H;
    try reflexivity; try discriminate.
  simpl in *. destruct (ascii_dec c d) as [->|]; [|discriminate].
  destruct (ascii_dec (Str.lower_char d) (Str.lower_char d)); [|congruence].
  now apply IH.
Qed.

Lemma download_file_requests (w : world) (url : string) (folder : OsPath.path) :
  Str.startswith "http" (Str.lower url) = true ->
  keeps requests_http (download_file w url folder).
Proof.
  intros Hu st. unfold download_file.
  destruct (local_name w url) as [name|]; [|apply requests_http_refl].
  step_m. destruct (Fs.exists_in folder name (fs st));
    [now apply requests_http_same|].
  assert (G : requests_http st (add_request url st)).
  { intros u H. simpl in H. apply in_app_one in H as [H| ->]; auto. }
  destruct (server w (requests st) url) as [|status chunks complete];
    [exact G|].
  destruct (Nat.eqb status 200); [|exact G].
  cbn [fs add_request].
  destruct (Fs.write _ _ (fs st)); [|exact G].
  destruct complete; exact G.
Qed.

Lemma replace_references_requests (w : world) (file_path : OsPath.path)
    (pattern : Re.pattern) :
  (forall url, Re.lang (Re.icase pattern) (Re.group pattern) url ->
               Str.startswith "http" (Str.lower url) = true) ->
  keeps requests_http (replace_references w file_path pattern).
Proof.
  intros Hp. unfold replace_references.
  apply keeps_bind; [apply requests_http_trans | |].
  { intros st. unfold read_file.
    destruct (Fs.lookup file_path (fs st)) as [[d|es]|];
      now apply requests_http_same. }
  intros content. apply keeps_bind; [apply requests_http_trans | |].
  { unfold replace_urls_in_srcset.
    apply keeps_foldM; [apply requests_http_refl | apply requests_http_trans |].
    intros b m.
    apply keeps_foldM; [apply requests_http_refl | apply requests_http_trans |].
    intros b' part. unfold srcset_part.
    destruct (Str.startswith "http" (srcset_candidate part)) eqn:Hh;
      [|apply keeps_ret, requests_http_refl].
    destruct (folder_for w (srcset_candidate part));
      [|apply keeps_raise, requests_http_refl].
    apply keeps_bind; [apply requests_http_trans | |].
    - apply download_file_requests. exact (prefix_lower "http" _ Hh).
    - intros lp. destruct (truthy lp); apply keeps_ret, requests_http_refl. }
  intros content'. apply keeps_bind; [apply requests_http_trans | |].
  { apply keeps_foldM_in;
      [apply requests_http_refl | apply requests_http_trans |].
    intros b url Hu. apply set_iter_spec in Hu.
    apply findall_sound in Hu as (a & pre & post & rest & _ & Hl).
    unfold reference.
    destruct (folder_for w url); [|apply keeps_raise, requests_http_refl].
    apply keeps_bind; [apply requests_http_trans | |].
    - apply download_file_requests. now apply Hp.
    - intros lp. destruct (truthy lp); apply keeps_ret, requests_http_refl. }
  intros acc. destruct (snd acc); [|apply keeps_ret, requests_http_refl].
  apply keeps_bind; [apply requests_http_trans | |].
  - intros st. unfold write_file.
    destruct (Fs.write file_path (fst acc) (fs st));
      now apply requests_http_same.
  - intros _ st. now apply requests_http_same.
Qed.

Lemma shape_http (exts : list string) (stop : list ascii) (url : string) :
  url_shape exts stop url = true ->
  Str.startswith "http" (Str.lower url) = true.
Proof.
  unfold url_shape, Str.startswith. intros H.
  apply andb_true_iff in H as [H _]. apply andb_true_iff in H as [H _].
  apply orb_true_iff in H as [H|H].
  - exact (prefix_shorter "http" "://" _ H).
  - exact (prefix_shorter "http" "s://" _ H).
Qed.

Lemma program_pattern_http (pattern : Re.pattern) (url : string) :
  In pattern program_patterns ->
  Re.lang (Re.icase pattern) (Re.group pattern) url ->
  Str.startswith "http" (Str.lower url) = true.
Proof.
  intros [<-|[<-|[<-|[<-|[]]]]] H.
  - apply (shape_http image_extensions html_stop).
    apply html_url_shape; [discriminate | reflexivity | now vm_compute | exact H].
  - apply (shape_http pdf_extensions html_stop).
    apply html_url_shape; [discriminate | reflexivity | now vm_compute | exact H].
  - apply (shape_http video_extensions html_stop).
    apply html_url_shape; [discriminate | reflexivity | now vm_compute | exact H].
  - apply (shape_http (image_extensions ++ font_extensions)%list css_stop).
    apply css_url_shape; [discriminate | reflexivity | now vm_compute | exact H].
Qed.

(** X8.  Every request that a run of [process_files] makes is for a url
    that starts with http, in any case of the letters: an entry of a
    srcset attribute that starts with http, or a url matched by one of
    the four patterns.  Nothing else in a document, and nothing from a
    file that is not a document, is ever fetched. *)
Theorem run_requests_http (w : world) (st : state) (u : string) :
  In u (requests (snd (process_files w st))) ->
  In u (requests st) \/ Str.startswith "http" (Str.lower u) = true.
Proof.
  revert u. change (requests_http st (snd (process_files w st))).
  unfold process_files.
  apply keeps_bind; [apply requests_http_trans | |].
  { intros s. unfold list_dirs. destruct (Fs.lookup project_root (fs s));
      apply requests_http_refl. }
  intros roots.
  apply keeps_for_each; [apply requests_http_refl | apply requests_http_trans |].
  intros root.
  apply keeps_bind;
    [apply requests_http_trans | intros s; apply requests_http_refl |].
  intros files.
  apply keeps_for_each; [apply requests_http_refl | apply requests_http_trans |].
  intros file. unfold process_file.
  assert (Hrr : forall pattern, In pattern program_patterns ->
            keeps requests_http
              (replace_references w (root ++ [file])%list pattern)).
  { intros pattern Hin. apply replace_references_requests.
    intros url. now apply program_pattern_http. }
  destruct (is_html file).
  - apply keeps_bind; [apply requests_http_trans | apply Hrr; simpl; auto |].
    intros _.
    apply keeps_bind; [apply requests_http_trans | apply Hrr; simpl; auto |].
    intros _. apply Hrr; simpl; auto.
  - destruct (is_css file);
      [apply Hrr; simpl; auto | apply keeps_ret, requests_http_refl].
Qed.

Lemma run_requests_http_witness :
  In "https://cdn.test/pic.jpg"
     (requests (snd (process_files obliging_world
                       (snd (startup (empty_state site_tree)))))) /\
  (In "https://cdn.test/pic.jpg"
      (requests (snd (startup (empty_state site_tree)))) \/
   Str.startswith "http" (Str.lower "https://cdn.test/pic.jpg") = true).
Proof.
  assert (H : In "https://cdn.test/pic.jpg"
                (requests (snd (process_files obliging_world
                                  (snd (startup (empty_state site_tree)))))))
    by (vm_compute; tauto).
  split; [exact H|].
  exact (run_requests_http obliging_world
           (snd (startup (empty_state site_tree)))
           "https://cdn.test/pic.jpg" H).
Defined.

(** * Names that need no sanitising *)

Lemma replace_absent (c : ascii) (old new s : string) :
  Str.mem c s = false -> Str.replace (String c old) new s = s.
Proof.
  unfold Str.replace. induction s as [|d s IH]; [reflexivity|].
  intros H. cbn [Str.mem] in H. apply orb_false_iff in H as [H1 H2].
  cbn [Str.replace_from String.prefix].
  destruct (ascii_dec c d) as [->|_].
  - now rewrite Ascii.eqb_refl in H1.
  - now rewrite (IH H2).
Qed.

Lemma filter_all_safe (f : ascii -> bool) (s : string) :
  Str.forallb f s = true -> Str.filter f s = s.
Proof.
  induction s as [|c s IH]; simpl; [reflexivity|].
  intros H. apply andb_true_iff in H as [H1 H2]. now rewrite H1, IH.
Qed.

Lemma sanitize_safe (s : string) :
  Str.forallb safe_char s = true -> sanitize s = s.
Proof.
  intros H. unfold sanitize.
  rewrite (replace_absent "%" "20" "" s).
  - rewrite sub_unsafe. now apply filter_all_safe.
  - now apply (forallb_not_mem safe_char).
Qed.

(** X9.  A url whose path ends in a name made of characters of
    [[A-Za-z0-9._-]] only is stored under exactly that name: sanitising
    changes nothing in it.  Sanitising is therefore idempotent, and every
    name that [download_file] stores under is such a name. *)
Theorem safe_name_kept (w : world) (url parsed_path : string) :
  Url.path (ip_literal_ok w) (Str.replace "%20" "" url) = Some parsed_path ->
  Str.forallb safe_char (OsPath.basename parsed_path) = true ->
  local_name w url = Some (OsPath.basename parsed_path) /\
  (forall name, sanitize (sanitize name) = sanitize name) /\
  (forall name, local_name w url = Some name -> sanitize name = name).
Proof.
  intros Hp Hs.
  assert (E : local_name w url = Some (OsPath.basename parsed_path)).
  { unfold local_name. rewrite Hp.
    change (Some (sanitize (OsPath.basename parsed_path))
            = Some (OsPath.basename parsed_path)).
    now rewrite sanitize_safe. }
  split; [exact E|]. split.
  - intros name. apply sanitize_safe. unfold sanitize. rewrite sub_unsafe.
    apply forallb_filter.
  - intros name Hn. apply sanitize_safe. now apply local_name_safe with w url.
Qed.

Lemma safe_name_kept_witness :
  local_name obliging_world "https://cdn.test/img/Logo-2_final.PNG?v=3"
  = Some (OsPath.basename "/img/Logo-2_final.PNG") /\
  (forall name, sanitize (sanitize name) = sanitize name) /\
  (forall name,
     local_name obliging_world "https://cdn.test/img/Logo-2_final.PNG?v=3"
     = Some name -> sanitize name = name).
Proof.
  exact (safe_name_kept obliging_world
           "https://cdn.test/img/Logo-2_final.PNG?v=3" "/img/Logo-2_final.PNG"
           eq_refl eq_refl).
Defined.

(** * A resolved reference and the content *)

Lemma findall_occurs (p : Re.pattern) (s g : string) :
  In g (Re.findall p s) -> occurs g s.
Proof.
  intros H. apply findall_sound in H as (a & pre & post & rest & -> & _).
  exists (a ++ pre), (post ++ rest). now rewrite !app_assoc_s.
Qed.

Lemma replace_changes (o n : ascii) (old new s : string) :
  o <> n -> occurs (String o old) s ->
  Str.replace (String o old) (String n new) s <> s.
Proof.
  intros Hon (a & b & ->). unfold Str.replace.
  induction a as [|c a IH].
  - change ("" ++ String o old ++ b) with (String o (old ++ b)).
    cbn [Str.replace_from].
    change (String o (old ++ b)) with (String o old ++ b) at 1.
    rewrite prefix_app. cbn [String.append]. congruence.
  - change (String c a ++ String o old ++ b)
      with (String c (a ++ String o old ++ b)).
    cbn [Str.replace_from].
    destruct (String.prefix (String o old) (String c (a ++ String o old ++ b)))
      eqn:Hp.
    + cbn [String.prefix] in Hp.
      destruct (ascii_dec o c) as [->|]; [|discriminate].
      cbn [String.append]. congruence.
    + intros H. apply IH. congruence.
Qed.

Lemma http_first_char (url : string) :
  Str.startswith "http" (Str.lower url) = true ->
  exists c rest, url = String c rest /\ c <> "/"%char.
Proof.
  destruct url as [|c rest]; [discriminate|].
  intros H. exists c, rest. split; [reflexivity|].
  intros ->. discriminate.
Qed.

(** X10.  One turn of the loop of [replace_references], for a url that
    one of the four patterns has found and that still occurs in the
    content, by the outcome of its download.  When [download_file]
    returns a path, the url is replaced by a slash and that path, the
    flag is set, and the content is not what it was: the first
    occurrence of the url, which starts with the letter h in either
    case, has given way to a link that starts with a slash.  When
    [download_file] returns None, content and flag are as they were.
    An exception, of [download_file] or of [urlparse], ends the turn. *)
Theorem resolved_reference_changes_content (w : world) (pattern : Re.pattern)
    (content url : string) (acc : string * bool) (st : state) :
  In pattern program_patterns ->
  In url (Re.findall pattern content) ->
  occurs url (fst acc) ->
  match folder_for w url with
  | Some folder =>
      match download_file w url folder st with
      | (Ret (Some rel), st') =>
          let link := "/" ++ normalize_separators (Some rel) in
          reference w acc url st
          = (Ret (Str.replace url link (fst acc), true), st') /\
          Str.replace url link (fst acc) <> fst acc
      | (Ret None, st') => reference w acc url st = (Ret acc, st')
      | (Raise e, st') => reference w acc url st = (Raise e, st')
      end
  | None => reference w acc url st = (Raise ValueError, st)
  end.
Proof.
  intros Hin Hf Ho.
  apply findall_sound in Hf as (_ & _ & _ & _ & _ & Hl).
  apply (program_pattern_http pattern url Hin) in Hl.
  apply http_first_char in Hl as (c & rest & -> & Hc).
  destruct (folder_for w (String c rest)) as [folder|] eqn:Hfo;
    [|unfold reference; now rewrite Hfo].
  destruct (download_file w (String c rest) folder st) as [[[rel|]|e] st'] eqn:Hd.
  - split; [now apply reference_hit with folder|].
    change ("/" ++ normalize_separators (Some rel))
      with (String "/" (normalize_separators (Some rel))).
    now apply replace_changes.
  - unfold reference. rewrite Hfo. unfold bind. now rewrite Hd.
  - unfold reference. rewrite Hfo. unfold bind. now rewrite Hd.
Qed.

Lemma resolved_reference_changes_content_witness :
  let url := "https://cdn.test/pic.jpg" in
  let content := "<img src=" ++ quoted url ++ ">" in
  let st := snd (startup (empty_state site_tree)) in
  reference obliging_world (content, false) url st
  = (Ret (Str.replace url "/assets/pic.jpg" content, true),
     snd (download_file obliging_world url assets_folder st)) /\
  Str.replace url "/assets/pic.jpg" content <> content.
Proof.
  refine (resolved_reference_changes_content obliging_world html_img_pattern
            ("<img src=" ++ quoted "https://cdn.test/pic.jpg" ++ ">")
            "https://cdn.test/pic.jpg"
            ("<img src=" ++ quoted "https://cdn.test/pic.jpg" ++ ">", false)
            (snd (startup (empty_state site_tree)))
            _ _ _).
  - simpl. auto.
  - vm_compute. auto.
  - exists ("<img src=" ++ String dquote ""), (String dquote ">").
    reflexivity.
Defined.

(** * What a run prints *)

Lemma says_refl (st : state) : says st st.
Proof. exists []. split; [now rewrite app_nil_r | intros []]. Qed.

Lemma says_trans (a b c : state) : says a b -> says b c -> says a c.
Proof.
  intros (l1 & E1 & N1) (l2 & E2 & N2). exists (l1 ++ l2)%list. split.
  - now rewrite E2, E1, app_assoc.
  - intros H. apply in_app_or in H as [H|H]; auto.
Qed.

Lemma says_same (st st' : state) : out st' = out st -> says st st'.
Proof. intros E. exists []. split; [now rewrite app_nil_r | intros []]. Qed.

Lemma says_print (m : message) :
  m <> AllDone -> keeps says (print m).
Proof.
  intros Hm st. exists [m]. split; [reflexivity|].
  intros [H|[]]. now apply Hm.
Qed.

Lemma says_write (p : OsPath.path) (data : string) :
  keeps says (write_file p data).
Proof.
  intros st. unfold write_file.
  destruct (Fs.write p data (fs st)); now apply says_same.
Qed.

Lemma says_download (w : world) (url : string) (folder : OsPath.path) :
  keeps says (download_file w url folder).
Proof.
  unfold download_file.
  destruct (local_name w url) as [name|]; [|apply keeps_raise, says_refl].
  apply keeps_bind; [apply says_trans | intros st; apply says_refl |].
  intros [|].
  { apply keeps_bind; [apply says_trans | now apply says_print |].
    intros _. apply keeps_ret, says_refl. }
  apply keeps_bind; [apply says_trans | intros st; now apply says_same |].
  intros [|status chunks complete].
  { apply keeps_bind; [apply says_trans | now apply says_print |].
    intros _. apply keeps_ret, says_refl. }
  destruct (Nat.eqb status 200).
  - apply keeps_bind; [apply says_trans | apply says_write |]. intros _.
    destruct complete;
      (apply keeps_bind; [apply says_trans | now apply says_print |];
       intros _; apply keeps_ret, says_refl).
  - apply keeps_bind; [apply says_trans | now apply says_print |].
    intros _. apply keeps_ret, says_refl.
Qed.

Lemma says_replace_references (w : world) (file_path : OsPath.path)
    (pattern : Re.pattern) :
  keeps says (replace_references w file_path pattern).
Proof.
  unfold replace_references.
  apply keeps_bind; [apply says_trans | |].
  { intros st. unfold read_file.
    destruct (Fs.lookup file_path (fs st)) as [[d|es]|]; now apply says_same. }
  intros content. apply keeps_bind; [apply says_trans | |].
  { unfold replace_urls_in_srcset.
    apply keeps_foldM; [apply says_refl | apply says_trans |].
    intros b m. apply keeps_foldM; [apply says_refl | apply says_trans |].
    intros b' part. unfold srcset_part.
    destruct (Str.startswith "http" (srcset_candidate part));
      [|apply keeps_ret, says_refl].
    destruct (folder_for w (srcset_candidate part));
      [|apply keeps_raise, says_refl].
    apply keeps_bind; [apply says_trans | apply says_download |].
    intros lp. destruct (truthy lp); apply keeps_ret, says_refl. }
  intros content'. apply keeps_bind; [apply says_trans | |].
  { apply keeps_foldM; [apply says_refl | apply says_trans |].
    intros b url. unfold reference.
    destruct (folder_for w url); [|apply keeps_raise, says_refl].
    apply keeps_bind; [apply says_trans | apply says_download |].
    intros lp. destruct (truthy lp); apply keeps_ret, says_refl. }
  intros acc. destruct (snd acc); [|apply keeps_ret, says_refl].
  apply keeps_bind; [apply says_trans | apply says_write |].
  intros _. now apply says_print.
Qed.

Lemma says_process_files (w : world) : keeps says (process_files w).
Proof.
  unfold process_files.
  apply keeps_bind; [apply says_trans | |].
  { intros s. unfold list_dirs. destruct (Fs.lookup project_root (fs s));
      apply says_refl. }
  intros roots. apply keeps_for_each; [apply says_refl | apply says_trans |].
  intros root.
  apply keeps_bind; [apply says_trans | intros s; apply says_refl |].
  intros files. apply keeps_for_each; [apply says_refl | apply says_trans |].
  intros file. unfold process_file.
  destruct (is_html file).
  - apply keeps_bind;
      [apply says_trans | apply says_replace_references | intros _].
    apply keeps_bind;
      [apply says_trans | apply says_replace_references | intros _].
    apply says_replace_references.
  - destruct (is_css file);
      [apply says_replace_references | apply keeps_ret, says_refl].
Qed.

(** X11.  The closing message of [main] is printed exactly when the run
    comes to its end without an exception, once and as the last message:
    a run that stops at an exception (a url that [urlparse] rejects, a
    file that cannot be written or read, a folder that cannot be made)
    has added messages to the output without the closing one. *)
Theorem main_reports_completion (w : world) (st : state) :
  match main w st with
  | (Ret _, st') =>
      exists l, out st' = (out st ++ l ++ [AllDone])%list /\ ~ In AllDone l
  | (Raise _, st') =>
      exists l, out st' = (out st ++ l)%list /\ ~ In AllDone l
  end.
Proof.
  assert (S1 : keeps says startup).
  { unfold startup.
    apply keeps_bind; [apply says_trans | | intros _];
      intros s; unfold makedirs; destruct (Fs.makedirs _ (fs s));
      now apply says_same. }
  unfold main, bind.
  pose proof (S1 st) as H1.
  destruct (startup st) as [[[]|e] st1]; cbn [snd] in H1; [|exact H1].
  pose proof (says_process_files w st1) as H2.
  destruct (process_files w st1) as [[[]|e] st2]; cbn [snd] in H2;
    [|exact (says_trans _ _ _ H1 H2)].
  destruct (says_trans _ _ _ H1 H2) as (l & E & N).
  exists l. split; [|exact N].
  cbn [print out add_out]. now rewrite E, app_assoc.
Qed.

(** * The dispatch of the documents *)

Lemma for_each_app {A : Type} (f : A -> M unit) (l1 l2 : list A) (st : state) :
  for_each (l1 ++ l2)%list f st = (for_each l1 f ;; for_each l2 f) st.
Proof.
  revert st. induction l1 as [|a l1 IH]; intros st; [reflexivity|].
  cbn [for_each app]. unfold bind.
  destruct (f a st) as [[[]|e] st1]; [|reflexivity].
  rewrite IH. reflexivity.
Qed.

Lemma process_file_calls (w : world) (root : OsPath.path) (file : string)
    (st : state) :
  process_file w root file st = for_each (calls_of root file) (call w) st.
Proof.
  unfold process_file, calls_of, patterns_of, call.
  destruct (is_html file); [|destruct (is_css file)]; simpl; unfold bind;
    [| |reflexivity].
  - destruct (replace_references w _ html_img_pattern st) as [[[]|e] s1];
      [|reflexivity].
    destruct (replace_references w _ html_pdf_pattern s1) as [[[]|e] s2];
      [|reflexivity].
    now destruct (replace_references w _ html_video_pattern s2) as [[[]|e] s3].
  - now destruct (replace_references w _ css_asset_pattern st) as [[[]|e] s1].
Qed.

Lemma directory_calls (w : world) (root : OsPath.path) (files : list string) :
  forall st,
  for_each files (process_file w root) st
  = for_each (flat_map (calls_of root) files) (call w) st.
Proof.
  induction files as [|file files IH]; intros st; [reflexivity|].
  cbn [for_each flat_map]. rewrite for_each_app. unfold bind.
  rewrite process_file_calls.
  destruct (for_each (calls_of root file) (call w) st) as [[[]|e] st1];
    [apply IH | reflexivity].
Qed.

Lemma assoc_In (k : string) (es : list (string * Fs.node)) (v : Fs.node) :
  Fs.assoc k es = Some v -> In (k, v) es.
Proof.
  induction es as [|[k' v'] es IH]; simpl; [discriminate|].
  destruct (String.eqb_spec k k') as [->|]; intros H; [inv H; now left|].
  right. now apply IH.
Qed.

(** [os.walk] reaches every directory of the tree. *)
Lemma dirs_complete (p : OsPath.path) :
  forall n here, Fs.is_dir p n = true -> In (here ++ p)%list (Fs.dirs here n).
Proof.
  unfold Fs.is_dir. induction p as [|c p IH]; intros n here H.
  - simpl in H. destruct n as [d|es]; [discriminate|].
    rewrite app_nil_r. now left.
  - simpl in H. destruct n as [d|es]; [discriminate|].
    destruct (Fs.assoc c es) as [m|] eqn:E; [|discriminate].
    simpl. right. apply in_flat_map. exists (c, m).
    split; [now apply assoc_In|]. simpl.
    replace (here ++ c :: p)%list with ((here ++ [c]) ++ p)%list
      by now rewrite <- app_assoc.
    now apply IH.
Qed.

Lemma lookup_app (p q : OsPath.path) :
  forall n, Fs.lookup (p ++ q)%list n
            = match Fs.lookup p n with
              | Some m => Fs.lookup q m
              | None => None
              end.
Proof.
  induction p as [|c p IH]; intros n; [reflexivity|].
  simpl. destruct n as [d|es]; [reflexivity|].
  destruct (Fs.assoc c es); [apply IH | reflexivity].
Qed.

(** The listing of a directory names every file in it. *)
Lemma files_complete (root : OsPath.path) (file d : string) (n : Fs.node) :
  Fs.lookup (root ++ [file])%list n = Some (Fs.File d) ->
  In file (Fs.files root n).
Proof.
  rewrite lookup_app. unfold Fs.files.
  destruct (Fs.lookup root n) as [[d0|es]|]; try discriminate.
  simpl. destruct (Fs.assoc file es) as [m|] eqn:E; [|discriminate].
  intros H. inv H. apply in_flat_map. exists (file, Fs.File d).
  split; [now apply assoc_In | now left].
Qed.

Lemma flat_map_split {A B : Type} (f : A -> list B) (a : A) (l : list A) :
  In a l -> exists before after, flat_map f l = (before ++ f a ++ after)%list.
Proof.
  intros H. apply in_split in H as (l1 & l2 & ->).
  exists (flat_map f l1), (flat_map f l2).
  now rewrite flat_map_app.
Qed.

(** A run of the two loops of [process_files] is a sequence of calls of
    [replace_references], each on a document with one of its patterns;
    when the run ends without an exception, every file that is in one of
    the directories at the start has had its calls, one after the
    other. *)
Lemma walk_calls (w : world) (roots : list OsPath.path) :
  forall st,
  let walk :=
    for_each roots (fun root =>
      files <- list_files root ;; for_each files (process_file w root)) in
  exists calls,
    walk st = for_each calls (call w) st /\
    (forall c, In c calls -> exists root file, In c (calls_of root file)) /\
    (fst (walk st) = Ret tt ->
     forall root file d,
       In root roots ->
       Fs.lookup (root ++ [file])%list (fs st) = Some (Fs.File d) ->
       exists before after,
         calls = (before ++ calls_of root file ++ after)%list).
Proof.
  induction roots as [|r rs IH]; intros st walk.
  { exists []. split; [reflexivity|]. split; [intros c []|].
    intros _ root file d []. }
  set (cs := flat_map (calls_of r) (Fs.files r (fs st))).
  assert (Hcs : forall c, In c cs -> exists root file, In c (calls_of root file)).
  { intros c Hc. apply in_flat_map in Hc as (file & _ & Hc). now exists r, file. }
  assert (E : walk st
              = match for_each cs (call w) st with
                | (Ret _, st1) =>
                    for_each rs (fun root =>
                      files <- list_files root ;;
                      for_each files (process_file w root)) st1
                | (Raise e, st1) => (Raise e, st1)
                end).
  { unfold walk. cbn [for_each]. unfold bind at 1. unfold bind at 1.
    unfold list_files. rewrite directory_calls. reflexivity. }
  pose proof (keeps_for_each files_grow files_grow_refl files_grow_trans
                cs (call w)
                (fun c => replace_references_grow w (fst c) (snd c)) st) as G.
  destruct (for_each cs (call w) st) as [[[]|e] st1] eqn:E1; cbn [snd] in G.
  - destruct (IH st1) as (calls2 & H1 & H2 & H3).
    exists (cs ++ calls2)%list. split; [|split].
    + rewrite E, for_each_app. unfold bind. now rewrite E1.
    + intros c Hc. apply in_app_or in Hc as [Hc|Hc]; auto.
    + rewrite E. intros Hret root file d [<-|Hin] Hl.
      * destruct (flat_map_split (calls_of r) file (Fs.files r (fs st))
                    (files_complete _ _ _ _ Hl)) as (before & after & Hb).
        exists before, (after ++ calls2)%list. fold cs in Hb. rewrite Hb.
        now rewrite <- !app_assoc.
      * destruct G as [G _]. destruct (G _ _ Hl) as [d' Hl'].
        destruct (H3 Hret root file d' Hin Hl') as (before & after & ->).
        exists (cs ++ before)%list, after. now rewrite <- app_assoc.
  - exists cs. split; [|split; [exact Hcs|]].
    + now rewrite E.
    + rewrite E. discriminate.
Qed.

(** C9.  A run of [process_files] opens for reading, and reports as
    updated, only files whose name ends in .html or .css without regard
    to case, and every other file that was under the root keeps its
    content.  Each .html file goes through the image, the PDF and the
    video pattern, in that order; each .css file through the combined
    CSS pattern; any other file is skipped.  The run as a whole is a
    sequence of calls of [replace_references], each on a file with one
    of the patterns of its name, and when it ends without an exception
    every file that was under the root at the start, in whatever
    directory, has been dispatched: its calls are in the sequence, one
    after the other and in the order of its patterns. *)
Theorem only_documents_touched (w : world) (st : state) :
  let st' := snd (process_files w st) in
  (forall q d, Fs.lookup q (fs st) = Some (Fs.File d) -> doc_path q = false ->
               Fs.lookup q (fs st') = Some (Fs.File d)) /\
  (forall q, In q (reads st') -> In q (reads st) \/ doc_path q = true) /\
  (forall q, In (Updated q) (out st') ->
             In (Updated q) (out st) \/ doc_path q = true) /\
  (forall root file,
     let file_path := (root ++ [file])%list in
     process_file w root file
     = if Str.endswith ".html" (Str.lower file) then
         replace_references w file_path html_img_pattern ;;
         replace_references w file_path html_pdf_pattern ;;
         replace_references w file_path html_video_pattern
       else if Str.endswith ".css" (Str.lower file) then
         replace_references w file_path css_asset_pattern
       else ret tt) /\
  (exists calls,
     process_files w st = for_each calls (call w) st /\
     (forall c, In c calls -> exists root file, In c (calls_of root file)) /\
     (fst (process_files w st) = Ret tt ->
      forall root file d,
        Fs.lookup (root ++ [file])%list (fs st) = Some (Fs.File d) ->
        exists before after,
          calls = (before ++ calls_of root file ++ after)%list)).
Proof.
  intros st'.
  assert (F : frame doc_path st st').
  { unfold st', process_files.
    apply keeps_bind; [apply frame_trans | intros s; apply frame_refl |].
    intros roots. apply keeps_for_each; [apply frame_refl | apply frame_trans |].
    intros root. apply keeps_bind; [apply frame_trans | intros s; apply frame_refl |].
    intros files. apply keeps_for_each; [apply frame_refl | apply frame_trans |].
    intros file. apply process_file_frame. }
  destruct F as (F1 & F2 & F3).
  split; [exact F1|]. split; [exact F2|]. split; [exact F3|].
  split; [reflexivity|].
  assert (E : process_files w st
              = for_each (Fs.dirs [] (fs st)) (fun root =>
                  files <- list_files root ;;
                  for_each files (process_file w root)) st) by reflexivity.
  destruct (walk_calls w (Fs.dirs [] (fs st)) st) as (calls & H1 & H2 & H3).
  exists calls. rewrite E. split; [exact H1|]. split; [exact H2|].
  intros Hret root file d Hl. apply (H3 Hret root file d); [|exact Hl].
  apply (dirs_complete root (fs st) []).
  now apply lookup_parent with file (Fs.File d).
Qed.

Example dispatch_of_site :
  let st := snd (startup (empty_state site_tree)) in
  calls_of [] "index.html"
  = [(["index.html"], html_img_pattern); (["index.html"], html_pdf_pattern);
     (["index.html"], html_video_pattern)] /\
  calls_of [] "style.css" = [(["style.css"], css_asset_pattern)] /\
  calls_of [] "notes.txt" = [] /\
  process_files obliging_world st
  = for_each (calls_of [] "index.html" ++ calls_of [] "style.css")%list
      (call obliging_world) st.
Proof.
  split; [reflexivity|]. split; [reflexivity|]. split; [reflexivity|].
  vm_compute. reflexivity.
Qed.

(** * Where the requests of a call come from *)

Lemma requests_from_refl (P : string -> Prop) (st : state) :
  requests_from P st st.
Proof. intros u H. now left. Qed.

Lemma requests_from_trans (P : string -> Prop) (a b c : state) :
  requests_from P a b -> requests_from P b c -> requests_from P a c.
Proof.
  intros H1 H2 u Hu. destruct (H2 u Hu) as [H|H]; [apply H1, H | now right].
Qed.

Lemma requests_from_same (P : string -> Prop) (st st' : state) :
  requests st' = requests st -> requests_from P st st'.
Proof. intros E u H. left. now rewrite <- E. Qed.

Lemma download_file_requests_from (w : world) (P : string -> Prop)
    (url : string) (folder : OsPath.path) :
  P url -> keeps (requests_from P) (download_file w url folder).
Proof.
  intros Hu st. unfold download_file.
  destruct (local_name w url) as [name|]; [|apply requests_from_refl].
  step_m. destruct (Fs.exists_in folder name (fs st));
    [now apply requests_from_same|].
  assert (G : requests_from P st (add_request url st)).
  { intros u H. simpl in H. apply in_app_one in H as [H| ->]; auto. }
  destruct (server w (requests st) url) as [|status chunks complete];
    [exact G|].
  destruct (Nat.eqb status 200); [|exact G].
  cbn [fs add_request].
  destruct (Fs.write _ _ (fs st)); [|exact G].
  destruct complete; exact G.
Qed.

Lemma srcset_requests_from (w : world) (content : string) :
  keeps (requests_from (srcset_entry content))
        (replace_urls_in_srcset w content).
Proof.
  unfold replace_urls_in_srcset.
  apply keeps_foldM_in;
    [apply requests_from_refl | apply requests_from_trans |].
  intros b m Hm.
  apply keeps_foldM_in;
    [apply requests_from_refl | apply requests_from_trans |].
  intros b' part Hp. unfold srcset_part.
  destruct (Str.startswith "http" (srcset_candidate part)) eqn:Hh;
    [|apply keeps_ret, requests_from_refl].
  destruct (folder_for w (srcset_candidate part));
    [|apply keeps_raise, requests_from_refl].
  apply keeps_bind; [apply requests_from_trans | |].
  - apply download_file_requests_from. now exists m, part.
  - intros lp. destruct (truthy lp); apply keeps_ret, requests_from_refl.
Qed.

Lemma references_requests_from (w : world) (urls : list string)
    (acc : string * bool) :
  keeps (requests_from (fun u => In u urls)) (foldM (reference w) urls acc).
Proof.
  apply keeps_foldM_in;
    [apply requests_from_refl | apply requests_from_trans |].
  intros b url Hu. unfold reference.
  destruct (folder_for w url); [|apply keeps_raise, requests_from_refl].
  apply keeps_bind; [apply requests_from_trans | |].
  - now apply download_file_requests_from.
  - intros lp. destruct (truthy lp); apply keeps_ret, requests_from_refl.
Qed.

(** X14.  Where the requests of one call of [replace_references] come
    from.  Every url that the call requests is an entry of a srcset
    attribute of the text read from the file, an entry that starts with
    http, or a url that the pattern of the call finds in the content
    that the srcset pass returns.  Nothing else is ever fetched. *)
Theorem requests_come_from_the_document (w : world) (file_path : OsPath.path)
    (pattern : Re.pattern) (st : state) (data u : string) :
  Fs.lookup file_path (fs st) = Some (Fs.File data) ->
  In u (requests (snd (replace_references w file_path pattern st))) ->
  let content := Str.universal_newlines data in
  In u (requests st) \/
  srcset_entry content u \/
  exists content',
    fst (replace_urls_in_srcset w content (add_read file_path st))
    = Ret content' /\
    In u (Re.findall pattern content').
Proof.
  intros Hl Hu content.
  unfold replace_references in Hu. rewrite bind_state in Hu.
  unfold read_file in Hu. rewrite Hl in Hu. cbv beta iota in Hu.
  fold content in Hu. rewrite bind_state in Hu.
  pose proof (srcset_requests_from w content (add_read file_path st)) as G1.
  destruct (replace_urls_in_srcset w content (add_read file_path st))
    as [[content'|e] st1]; cbn [snd fst] in *.
  2:{ destruct (G1 u Hu) as [H|H]; auto. }
  rewrite bind_state in Hu.
  pose proof (references_requests_from w
                (set_iter w (Re.findall pattern content')) (content', false) st1)
    as G2.
  destruct (foldM (reference w) (set_iter w (Re.findall pattern content'))
              (content', false) st1) as [[acc|e] st2]; cbn [snd] in G2.
  - assert (Hu2 : In u (requests st2)).
    { destruct (snd acc); [|exact Hu].
      rewrite bind_state in Hu. unfold write_file in Hu.
      destruct (Fs.write file_path (fst acc) (fs st2)); exact Hu. }
    destruct (G2 u Hu2) as [H|H].
    + destruct (G1 u H) as [H'|H']; auto.
    + right. right. exists content'. split; [reflexivity|].
      now apply set_iter_spec in H.
  - destruct (G2 u Hu) as [H|H].
    + destruct (G1 u H) as [H'|H']; auto.
    + right. right. exists content'. split; [reflexivity|].
      now apply set_iter_spec in H.
Qed.

Lemma requests_come_from_the_document_witness :
  let st := snd (startup (empty_state site_tree)) in
  let u := "http://cdn.test/b.png" in
  let content :=
    Str.universal_newlines
      ("<img srcset="
       ++ quoted "http://cdn.test/a.png 1x, http://cdn.test/b.png 2x"
       ++ "> <img src=" ++ quoted "https://cdn.test/pic.jpg" ++ ">") in
  In u (requests st) \/
  srcset_entry content u \/
  exists content',
    fst (replace_urls_in_srcset obliging_world content
           (add_read ["index.html"] st)) = Ret content' /\
    In u (Re.findall html_img_pattern content').
Proof.
  refine (requests_come_from_the_document obliging_world ["index.html"]
            html_img_pattern (snd (startup (empty_state site_tree)))
            _ "http://cdn.test/b.png" eq_refl _).
  vm_compute. tauto.
Defined.
